(** * Study Assistant: the retrieval-augmented answering engine

    A shallow embedding of [utils/rag_service.py] (class [RAGStudyAssistant]):
    the chunker, the embedding indexer, the retriever, the prompt composer,
    the generation invoker and the flashcard parser, followed by the
    properties of the written specification that concern them.

    Conventions of the embedding.
    - A Python [str] is a list of characters; characters are the code points
      below 256, so [isspace] and [lower] are Python's on that range.
    - A Python [int] is a [Z]; [len] is [Z.of_nat (length _)].
    - A raised exception is carried by [Raise]; [try/except Exception] is a
      match on the [result].
    - The components of an embedding vector are integers: the properties
      below depend on how many rows there are and in which order, never on
      the arithmetic of float32. *)

From Stdlib Require Import Ascii String.
From Stdlib Require Import List ZArith Lia Bool Arith Permutation.
Import ListNotations.

Local Open Scope Z_scope.
Local Open Scope list_scope.

(* ================================================================== *)
(** ** Python values and built-ins used by the service *)
(* ================================================================== *)

Module Py.

Definition str := list ascii.

(** A string literal of the source. *)
Definition lit (s : string) : str := list_ascii_of_string s.

(** The text of a [str], for reading results. *)
Definition show (s : str) : string := string_of_list_ascii s.

Definition nl : string := String "010" EmptyString.
Definition cr : string := String "013" EmptyString.

Inductive exn : Type := PyExc (cls : string) (msg : str).

(** [str(e)], what an f-string prints for [{e}]. *)
Definition exn_str (e : exn) : str := let 'PyExc _ m := e in m.

Inductive result (A : Type) : Type :=
| Ok (a : A)
| Raise (e : exn).
Arguments Ok {A} a.
Arguments Raise {A} e.

Definition bind {A B} (c : result A) (k : A -> result B) : result B :=
  match c with
  | Ok a => k a
  | Raise e => Raise e
  end.

Definition len {A} (l : list A) : Z := Z.of_nat (length l).

Definition nonempty {A} (l : list A) : bool :=
  match l with [] => false | _ :: _ => true end.

(** [c.isspace()] on the code points below 256. *)
Definition isspace (c : ascii) : bool :=
  let n := nat_of_ascii c in
  ((9 <=? n) && (n <=? 13) || (28 <=? n) && (n <=? 32)
   || (n =? 133) || (n =? 160))%nat.

(** [c.lower()] on the code points below 256. *)
Definition lower_char (c : ascii) : ascii :=
  let n := nat_of_ascii c in
  if ((65 <=? n) && (n <=? 90) || (192 <=? n) && (n <=? 214)
      || (216 <=? n) && (n <=? 222))%nat
  then ascii_of_nat (n + 32) else c.

Definition lower (s : str) : str := map lower_char s.

(** [text.split()]: the maximal runs of non-whitespace characters.
    [cur] is the word being read. *)
Fixpoint split_ws_from (cur s : str) : list str :=
  match s with
  | [] => if nonempty cur then [cur] else []
  | c :: s' =>
      if isspace c
      then (if nonempty cur then cur :: split_ws_from [] s'
            else split_ws_from [] s')
      else split_ws_from (cur ++ [c]) s'
  end.

Definition split_ws (s : str) : list str := split_ws_from [] s.

(** [sep.join(parts)]. *)
Fixpoint join (sep : str) (parts : list str) : str :=
  match parts with
  | [] => []
  | [p] => p
  | p :: ps => p ++ sep ++ join sep ps
  end.

(** [s.startswith(p)]. *)
Fixpoint startswith (p s : str) : bool :=
  match p, s with
  | [], _ => true
  | _ :: _, [] => false
  | a :: p', b :: s' => Ascii.eqb a b && startswith p' s'
  end.

(** [s.find(sub)], counting from [i]: the first position where [sub]
    occurs, or -1. *)
Fixpoint find_from (i : Z) (sub s : str) : Z :=
  if startswith sub s then i
  else match s with
       | [] => -1
       | _ :: s' => find_from (i + 1) sub s'
       end.

Definition find (sub s : str) : Z := find_from 0 sub s.

(** [s.split(sep)] for a non-empty [sep] (every call of the source passes
    a literal): cut at the occurrences of [sep], left to right, without
    overlap.  Each step consumes a character, so [length s] steps do. *)
Fixpoint split_sep_loop (fuel : nat) (sep cur s : str) : list str :=
  match fuel, s with
  | O, _ | _, [] => [cur]
  | S fuel', c :: s' =>
      if startswith sep s
      then cur :: split_sep_loop fuel' sep [] (skipn (length sep) s)
      else split_sep_loop fuel' sep (cur ++ [c]) s'
  end.

Definition split_sep (sep s : str) : list str :=
  split_sep_loop (length s) sep [] s.

(** [s.replace(old, new)]: every occurrence of [old], left to right,
    without overlap, becomes [new]. *)
Fixpoint replace_loop (fuel : nat) (old new s : str) : str :=
  match fuel, s with
  | O, _ | _, [] => []
  | S fuel', c :: s' =>
      if startswith old s
      then new ++ replace_loop fuel' old new (skipn (length old) s)
      else c :: replace_loop fuel' old new s'
  end.

Definition replace (old new s : str) : str :=
  match old with
  | [] => new ++ flat_map (fun c => c :: new) s
  | _ :: _ => replace_loop (length s) old new s
  end.

Fixpoint lstrip (s : str) : str :=
  match s with
  | [] => []
  | c :: s' => if isspace c then lstrip s' else s
  end.

Definition rstrip (s : str) : str := rev (lstrip (rev s)).

(** [s.strip()]. *)
Definition strip (s : str) : str := rstrip (lstrip s).

(** A slice bound: negative bounds count from the end, and every bound is
    brought into [0, n]. *)
Definition clamp_bound (n i : Z) : Z :=
  if i <? 0 then Z.max 0 (i + n) else Z.min i n.

(** [l[lo:hi]], a bound left out being [None]. *)
Definition slice {A} (l : list A) (lo hi : option Z) : list A :=
  let n := len l in
  let a := match lo with None => 0 | Some i => clamp_bound n i end in
  let b := match hi with None => n | Some j => clamp_bound n j end in
  firstn (Z.to_nat (b - a)) (skipn (Z.to_nat a) l).

(** [l[i]]: a negative [i] counts from the end. *)
Definition index {A} (l : list A) (i : Z) : result A :=
  let j := if i <? 0 then i + len l else i in
  if (j <? 0) || (len l <=? j)
  then Raise (PyExc "IndexError" (lit "list index out of range"))
  else match nth_error l (Z.to_nat j) with
       | Some x => Ok x
       | None => Raise (PyExc "IndexError" (lit "list index out of range"))
       end.

(** The values of [range(start, stop, step)] for a positive step:
    [i], [i + step], ... while below [stop]. *)
Fixpoint range_up (fuel : nat) (i stop step : Z) : list Z :=
  match fuel with
  | O => []
  | S fuel' =>
      if i <? stop then i :: range_up fuel' (i + step) stop step else []
  end.

(** The same for a negative step: while above [stop]. *)
Fixpoint range_down (fuel : nat) (i stop step : Z) : list Z :=
  match fuel with
  | O => []
  | S fuel' =>
      if stop <? i then i :: range_down fuel' (i + step) stop step else []
  end.

(** [range(start, stop, step)]; a zero step is a [ValueError]. *)
Definition range (start stop step : Z) : result (list Z) :=
  if step =? 0
  then Raise (PyExc "ValueError" (lit "range() arg 3 must not be zero"))
  else if 0 <? step
       then Ok (range_up (Z.to_nat (stop - start)) start stop step)
       else Ok (range_down (Z.to_nat (start - stop)) start stop step).

(** Reading an attribute of [None]. *)
Definition none_has_no (attr : string) : exn :=
  PyExc "AttributeError"
        (lit ("'NoneType' object has no attribute '" ++ attr ++ "'")).

End Py.

Import Py.

Notation "x <- c ;; k" := (bind c (fun x => k))
  (at level 61, c at next level, right associativity).

(* ================================================================== *)
(** ** The external collaborators: numpy, faiss, the models *)
(* ================================================================== *)

Module Ext.

Definition vector := list Z.

(** A two-dimensional array: [shape1] columns and the rows. *)
Record ndarray : Type := { shape1 : Z; rows : list vector }.

(** [np.vstack(arrays)]: the rows of all arrays, which must agree on the
    number of columns. *)
Definition vstack (arrays : list ndarray) : result ndarray :=
  match arrays with
  | [] => Raise (PyExc "ValueError"
                   (lit "need at least one array to concatenate"))
  | a :: _ =>
      if forallb (fun b => shape1 b =? shape1 a) arrays
      then Ok {| shape1 := shape1 a; rows := flat_map rows arrays |}
      else Raise (PyExc "ValueError"
                    (lit "all the input array dimensions except for the concatenation axis must match exactly"))
  end.

(** [faiss.IndexFlatL2]: the dimension and the stored rows, in the order
    they were added; a row's position is its label. *)
Record IndexFlatL2 : Type := { d : Z; xb : list vector }.

Definition new_index (dim : Z) : IndexFlatL2 := {| d := dim; xb := [] |}.

Definition ntotal (ix : IndexFlatL2) : Z := len (xb ix).

(** [index.add(x)]. *)
Definition index_add (ix : IndexFlatL2) (x : ndarray) : result IndexFlatL2 :=
  if shape1 x =? d ix
  then Ok {| d := d ix; xb := xb ix ++ rows x |}
  else Raise (PyExc "AssertionError" []).

(** The squared Euclidean distance. *)
Fixpoint l2sqr (x y : vector) : Z :=
  match x, y with
  | a :: x', b :: y' => (a - b) * (a - b) + l2sqr x' y'
  | _, _ => 0
  end.

(** The rows' labels paired with their distance to [q]. *)
Fixpoint distances (q : vector) (label : Z) (xs : list vector)
  : list (Z * Z) :=
  match xs with
  | [] => []
  | x :: xs' => (l2sqr q x, label) :: distances q (label + 1) xs'
  end.

Fixpoint insert_by_distance (p : Z * Z) (l : list (Z * Z)) : list (Z * Z) :=
  match l with
  | [] => [p]
  | p' :: l' =>
      if fst p' <=? fst p then p' :: insert_by_distance p l'
      else p :: l
  end.

(** By increasing distance, the earlier row first among equals. *)
Definition sort_by_distance (l : list (Z * Z)) : list (Z * Z) :=
  fold_left (fun acc p => insert_by_distance p acc) l [].

(** One query row of [index.search(x, k)]: the labels of the [k] nearest
    rows by increasing distance.  The answer always has [k] entries: when
    the index holds fewer than [k] rows, the missing labels are -1. *)
Definition search_row (ix : IndexFlatL2) (q : vector) (k : Z) : list Z :=
  let found :=
    firstn (Z.to_nat k)
           (map snd (sort_by_distance (distances q 0 (xb ix)))) in
  found ++ repeat (-1) (Z.to_nat k - length found).

(** [D, I = index.search(x, k)]; only [I] is read by the service. *)
Definition index_search (ix : IndexFlatL2) (x : ndarray) (k : Z)
  : result (list (list Z)) :=
  if shape1 x =? d ix
  then Ok (map (fun q => search_row ix q k) (rows x))
  else Raise (PyExc "AssertionError" []).

(** [SentenceTransformer.encode]: one row per text, or an exception. *)
Definition Embedder := list str -> result ndarray.

(** The keyword the generation call is given its length bound with. *)
Inductive length_arg : Type :=
| max_length (n : Z)
| max_new_tokens (n : Z).

(** A [transformers] pipeline: its task name and what one call returns,
    a list of dictionaries of which only the key ['generated_text'] is
    read ([None] when the key is missing). *)
Record Pipeline : Type := {
  task : str;
  call : str -> length_arg -> result (list (option str))
}.

(** [response[0].get('generated_text', '')]. *)
Definition generated_text_of (response : list (option str)) : result str :=
  r0 <- index response 0 ;;
  Ok (match r0 with Some t => t | None => [] end).

End Ext.

Import Ext.

(* ================================================================== *)
(** ** The service: [class RAGStudyAssistant] *)
(* ================================================================== *)

Record RAGStudyAssistant : Type := {
  embedder : option Embedder;
  qa_pipeline : option Pipeline;
  vector_index : option IndexFlatL2;
  documents : list str;
  chunk_size : Z;
  chunk_overlap : Z
}.

(** [__init__]: the two models are what loading them gave ([None] when it
    failed); the store is empty and there is no index yet. *)
Definition init (emb : option Embedder) (qa : option Pipeline)
  : RAGStudyAssistant :=
  {| embedder := emb;
     qa_pipeline := qa;
     vector_index := None;
     documents := [];
     chunk_size := 2000;
     chunk_overlap := 200 |}.

Definition set_documents (self : RAGStudyAssistant) (docs : list str) :=
  {| embedder := embedder self; qa_pipeline := qa_pipeline self;
     vector_index := vector_index self; documents := docs;
     chunk_size := chunk_size self; chunk_overlap := chunk_overlap self |}.

Definition set_vector_index (self : RAGStudyAssistant) (ix : IndexFlatL2) :=
  {| embedder := embedder self; qa_pipeline := qa_pipeline self;
     vector_index := Some ix; documents := documents self;
     chunk_size := chunk_size self; chunk_overlap := chunk_overlap self |}.

(** *** The chunker *)

(** One round of the loop of [_chunk_text]. *)
Definition chunk_step (self : RAGStudyAssistant) (words : list str)
           (chunks : list str) (i : Z) : list str :=
  let chunk := slice words (Some i) (Some (i + chunk_size self)) in
  if nonempty chunk then chunks ++ [join (lit " ") chunk] else chunks.

Definition _chunk_text (self : RAGStudyAssistant) (text : str)
  : result (list str) :=
  let words := split_ws text in
  starts <- range 0 (len words) (chunk_size self - chunk_overlap self) ;;
  Ok (fold_left (chunk_step self words) starts []).

(** [for text in texts: all_chunks.extend(self._chunk_text(text))]. *)
Fixpoint chunk_all (self : RAGStudyAssistant) (all_chunks : list str)
         (texts : list str) : result (list str) :=
  match texts with
  | [] => Ok all_chunks
  | text :: texts' =>
      chunks <- _chunk_text self text ;;
      chunk_all self (all_chunks ++ chunks) texts'
  end.

(** *** The embedding indexer *)

Definition batch_size : Z := 100.

(** [self.embedder.encode(batch)]; without an embedder the attribute
    access raises. *)
Definition encode (self : RAGStudyAssistant) (texts : list str)
  : result ndarray :=
  match embedder self with
  | None => Raise (none_has_no "encode")
  | Some emb => emb texts
  end.

(** One round of the batching loop: a batch whose embedding raises is
    reported and contributes nothing. *)
Definition embed_step (self : RAGStudyAssistant) (all_chunks : list str)
           (embeddings_list : list ndarray) (i : Z) : list ndarray :=
  let batch_chunks := slice all_chunks (Some i) (Some (i + batch_size)) in
  match encode self batch_chunks with
  | Ok batch_embeddings => embeddings_list ++ [batch_embeddings]
  | Raise _ => embeddings_list
  end.

(** [add_documents]: the outcome of the call ([Ok tt] for a return) and
    the service afterwards; the store is extended before the embedding
    starts and stays extended whatever happens next. *)
Definition add_documents (self : RAGStudyAssistant) (docs : list str)
  : result unit * RAGStudyAssistant :=
  if negb (nonempty docs) then (Ok tt, self)
  else
    match chunk_all self [] docs with
    | Raise e => (Raise e, self)
    | Ok all_chunks =>
        let self1 := set_documents self (documents self ++ all_chunks) in
        match range 0 (len all_chunks) batch_size with
        | Raise e => (Raise e, self1)
        | Ok starts =>
            let embeddings_list :=
              fold_left (embed_step self1 all_chunks) starts [] in
            if negb (nonempty embeddings_list) then (Ok tt, self1)
            else
              match vstack embeddings_list with
              | Raise e => (Raise e, self1)
              | Ok embeddings =>
                  let ix := match vector_index self1 with
                            | None => new_index (shape1 embeddings)
                            | Some ix => ix
                            end in
                  let self2 := set_vector_index self1 ix in
                  match index_add ix embeddings with
                  | Raise e => (Raise e, self2)
                  | Ok ix' => (Ok tt, set_vector_index self2 ix')
                  end
              end
        end
    end.

(** *** The retriever *)

Definition top_k : Z := 30.

Definition msg_no_materials : str :=
  lit "Please upload some study materials first!".
Definition msg_no_model : str := lit "QA model is not loaded properly.".
Definition msg_no_documents : str := lit "No relevant documents found.".

(** [D, I = self.vector_index.search(embedding, 30)], then [I[0]]. *)
Definition search_labels (self : RAGStudyAssistant) (ix : IndexFlatL2)
           (question : str) : result (list Z) :=
  question_embedding <- encode self [question] ;;
  I <- index_search ix question_embedding top_k ;;
  index I 0.

(** [[self.documents[i] for i in labels]]. *)
Fixpoint read_documents (docs : list str) (labels : list Z)
  : result (list str) :=
  match labels with
  | [] => Ok []
  | i :: labels' =>
      doc <- index docs i ;;
      rest <- read_documents docs labels' ;;
      Ok (doc :: rest)
  end.

(** The first part of [query]: [inl message] when the method returns
    early with a message, [inr context] when it goes on with a context. *)
Definition query_context (self : RAGStudyAssistant) (question : str)
           (context_texts : option (list str)) : result (str + str) :=
  match context_texts with
  | Some (text :: texts) =>
      all_chunks <- chunk_all self [] (text :: texts) ;;
      Ok (inr (join (lit nl) all_chunks))
  | _ =>
      match vector_index self with
      | None => Ok (inl msg_no_materials)
      | Some ix =>
          if len (documents self) =? 0 then Ok (inl msg_no_materials)
          else
            match qa_pipeline self with
            | None => Ok (inl msg_no_model)
            | Some _ =>
                I0 <- search_labels self ix question ;;
                if len I0 =? 0 then Ok (inl msg_no_documents)
                else
                  found <- read_documents (documents self) I0 ;;
                  Ok (inr (join (lit nl) found))
            end
      end
  end.

(** *** The prompt composer *)

Fixpoint str_eqb (a b : str) : bool :=
  match a, b with
  | [], [] => true
  | x :: a', y :: b' => Ascii.eqb x y && str_eqb a' b'
  | _, _ => false
  end.

(** [table.get(key, default)] on a dictionary literal. *)
Fixpoint dict_get {V} (table : list (str * V)) (key : str) (default : V) : V :=
  match table with
  | [] => default
  | (k, v) :: table' => if str_eqb k key then v else dict_get table' key default
  end.

Definition format_instructions : list (str * str) :=
  [ (lit "full",
     lit "You are a helpful AI study assistant. Answer the question in a friendly, conversational tone, providing detailed information from the context as if explaining to a curious student.");
    (lit "short_summary",
     lit "You are a helpful AI study assistant. Provide a concise summary of the key points from the context in 2-3 sentences, in a friendly and engaging way.");
    (lit "bullet_points",
     lit "You are a helpful AI study assistant. Extract and present the main information from the context in clear bullet points, making it easy and fun to read.");
    (lit "long_answer",
     lit "You are a helpful AI study assistant. Provide a long and detailed answer, elaborating on all relevant aspects from the context in a conversational manner, like chatting with a student.");
    (lit "one_word",
     lit "You are a helpful AI study assistant. Provide a single word answer based on the context, keeping it straightforward.");
    (lit "short_answer",
     lit "You are a helpful AI study assistant. Provide a brief answer in one or two sentences based on the context, in a friendly tone.") ].

Definition default_instruction : str :=
  lit "Answer in full sentences and in detail.".

Definition instruction_of (answer_format : str) : str :=
  dict_get format_instructions answer_format default_instruction.

Definition max_len_table : list (str * Z) :=
  [ (lit "full", 2048);
    (lit "short_summary", 1024);
    (lit "bullet_points", 1024);
    (lit "long_answer", 2048);
    (lit "one_word", 20);
    (lit "short_answer", 1024) ].

Definition max_len_of (answer_format : str) : Z :=
  dict_get max_len_table answer_format 2048.

Definition query_prompt (answer_format context question : str) : str :=
  instruction_of answer_format
  ++ lit " Based on the provided context, answer the following educational question accurately. Context: "
  ++ context ++ lit " Question: " ++ question.

(** *** The generation invoker *)

(** The body of the [try]: the pipeline is called the way its task asks
    for, and a causal model's output has the prompt replaced by nothing. *)
Definition generate_text (self : RAGStudyAssistant) (prompt : str)
           (max_len : Z) : result str :=
  match qa_pipeline self with
  | None => Raise (none_has_no "task")
  | Some qa =>
      if str_eqb (task qa) (lit "text2text-generation")
      then
        response <- call qa prompt (max_length max_len) ;;
        generated_text_of response
      else
        response <- call qa prompt (max_new_tokens max_len) ;;
        generated_text <- generated_text_of response ;;
        Ok (replace prompt [] generated_text)
  end.

(** [try: ... except Exception as e: return f"Error during generation: {e}"]. *)
Definition invoke_generation (self : RAGStudyAssistant) (prompt : str)
           (max_len : Z) : str :=
  match generate_text self prompt max_len with
  | Ok generated_text => generated_text
  | Raise e => lit "Error during generation: " ++ exn_str e
  end.

Definition query (self : RAGStudyAssistant) (question : str)
           (context_texts : option (list str)) (answer_format : str)
  : result str :=
  c <- query_context self question context_texts ;;
  match c with
  | inl message => Ok message
  | inr context =>
      let prompt := query_prompt answer_format context question in
      let max_len := max_len_of answer_format in
      Ok (invoke_generation self prompt max_len)
  end.

(** *** The flashcard parser *)

Record Flashcard : Type := {
  question : str;
  answer : str;
  review_count : Z;
  last_reviewed : option Z
}.

Definition new_flashcard (q a : str) : Flashcard :=
  {| question := q; answer := a; review_count := 0; last_reviewed := None |}.

(** One round of the loop over the parts that follow a ["Flashcard "]. *)
Definition marker_step (flashcards : list Flashcard) (part : str)
  : list Flashcard :=
  let lines := split_sep (lit nl) part in
  if 3 <=? len lines then
    let question_line :=
      filter (fun line => startswith (lit "question:") (lower line)) lines in
    let answer_line :=
      filter (fun line => startswith (lit "answer:") (lower line)) lines in
    match question_line, answer_line with
    | ql :: _, al :: _ =>
        let q := strip (slice ql (Some (len (lit "question:"))) None) in
        let a := strip (slice al (Some (len (lit "answer:"))) None) in
        if nonempty q && nonempty a
        then flashcards ++ [new_flashcard q a] else flashcards
    | _, _ => flashcards
    end
  else flashcards.

(** One round of the loop over the parts that follow a ["Question:"]. *)
Definition fallback_step (flashcards : list Flashcard) (part : str)
  : list Flashcard :=
  let answer_start := find (lit "answer:") (lower part) in
  if negb (answer_start =? -1) then
    let q := strip (slice part None (Some answer_start)) in
    let remaining :=
      strip (slice part (Some (answer_start + len (lit "answer:"))) None) in
    let next_question := find (lit "question:") (lower remaining) in
    let a := if negb (next_question =? -1)
             then strip (slice remaining None (Some next_question))
             else strip remaining in
    if nonempty q && nonempty a
    then flashcards ++ [new_flashcard q a] else flashcards
  else flashcards.

(** The parsing of the generated text, up to [return flashcards[:5]]. *)
Definition parse_flashcards (generated_text : str) : list Flashcard :=
  let normalized_text :=
    replace (lit cr) (lit nl) (replace (lit (cr ++ nl)) (lit nl) generated_text) in
  let parts := split_sep (lit "Flashcard ") normalized_text in
  let flashcards :=
    if 1 <? len parts
    then fold_left marker_step (slice parts (Some 1) None) []
    else
      let question_parts := split_sep (lit "Question:") normalized_text in
      fold_left fallback_step (slice question_parts (Some 1) None) [] in
  slice flashcards None (Some 5).

(** *** Flashcard generation *)

Definition max_context_chars : Z := 2048 * 4.

(** The five examples of the prompt. *)
Definition flashcard_examples : str :=
  lit ("Flashcard 1:" ++ nl ++ "Question: What is the capital of France?" ++ nl
       ++ "Answer: Paris" ++ nl ++ nl
       ++ "Flashcard 2:" ++ nl ++ "Question: What is 2+2?" ++ nl
       ++ "Answer: 4" ++ nl ++ nl
       ++ "Flashcard 3:" ++ nl ++ "Question: What is the color of the sky?" ++ nl
       ++ "Answer: Blue" ++ nl ++ nl
       ++ "Flashcard 4:" ++ nl ++ "Question: What is the largest planet?" ++ nl
       ++ "Answer: Jupiter" ++ nl ++ nl
       ++ "Flashcard 5:" ++ nl ++ "Question: What is water made of?" ++ nl
       ++ "Answer: Hydrogen and oxygen").

Definition flashcard_prompt (context : str) : str :=
  lit ("Generate 5 flashcards from the following study material. Each flashcard must have a question and answer. Format your response exactly like this example:" ++ nl ++ nl)
  ++ flashcard_examples
  ++ lit (nl ++ nl ++ "Context: ") ++ context
  ++ lit (nl ++ nl ++ "Flashcards:").

(** The context of the flashcard prompt: [None] when the method returns
    the empty list before building one. *)
Definition flashcard_context (self : RAGStudyAssistant) (content : option str)
  : result (option str) :=
  match content with
  | Some text =>
      chunks <- _chunk_text self text ;;
      Ok (Some (join (lit nl) (slice chunks None (Some 30))))
  | None =>
      match vector_index self with
      | None => Ok None
      | Some _ =>
          if len (documents self) =? 0 then Ok None
          else Ok (Some (join (lit nl) (slice (documents self) None (Some 30))))
      end
  end.

Definition generate_flashcards (self : RAGStudyAssistant) (content : option str)
  : result (list Flashcard) :=
  match qa_pipeline self with
  | None => Ok []
  | Some _ =>
      c <- flashcard_context self content ;;
      match c with
      | None => Ok []
      | Some context =>
          let context :=
            if max_context_chars <? len context
            then slice context None (Some max_context_chars) ++ lit "..."
            else context in
          let prompt := flashcard_prompt context in
          match generate_text self prompt 2048 with
          | Ok generated_text => Ok (parse_flashcards generated_text)
          | Raise _ => Ok []
          end
      end
  end.

(** *** Notes *)

Definition msg_no_documents_for_notes : str :=
  lit "No relevant documents found for notes generation.".

Definition notes_prompt (context topic : str) : str :=
  lit ("Generate detailed study notes on the following topic based on the context:"
       ++ nl ++ nl ++ "Context: ")
  ++ context ++ lit (nl ++ nl ++ "Topic: ") ++ topic
  ++ lit (nl ++ nl ++ "Notes:").

(** [generate_notes]: the retrieval of [query] on the index, then the
    generation with the prompt for notes. *)
Definition generate_notes (self : RAGStudyAssistant) (topic : str)
  : result str :=
  match vector_index self with
  | None => Ok msg_no_materials
  | Some ix =>
      if len (documents self) =? 0 then Ok msg_no_materials
      else
        match qa_pipeline self with
        | None => Ok msg_no_model
        | Some _ =>
            I0 <- search_labels self ix topic ;;
            if len I0 =? 0 then Ok msg_no_documents_for_notes
            else
              found <- read_documents (documents self) I0 ;;
              let context := join (lit nl) found in
              let prompt := notes_prompt context topic in
              match generate_text self prompt 2048 with
              | Ok generated_text => Ok generated_text
              | Raise e =>
                  Ok (lit "Error during notes generation: " ++ exn_str e)
              end
        end
  end.

(* ================================================================== *)
(** ** The exporter: [class NoteGenerator] and [export_notes] *)
(* ================================================================== *)

(** What an exporter hands to its library to be written under [filename]:
    the text of a file, the cells of a PDF page, the paragraphs of a Word
    document, the value under the key ["notes"] of a JSON object, the rows
    of the column ['Notes'] of a sheet, the bars of a chart. *)
Inductive Export : Type :=
| TxtFile (filename text : str)
| PdfFile (filename : str) (cells : list str)
| WordFile (filename : str) (paragraphs : list str)
| JsonFile (filename notes : str)
| ExcelFile (filename : str) (rows : list str)
| ChartFile (filename : str) (labels : list str) (values : list Z).

(** The file system and the libraries behind the exporters ([open], fpdf,
    python-docx, [json], pandas, matplotlib): what writing an export does,
    return or raise (an unwritable path, content the library refuses). *)
Definition Library : Type := Export -> result unit.

Definition export_txt (lib : Library) (notes filename : str) : result unit :=
  lib (TxtFile filename notes).

Definition export_pdf (lib : Library) (notes filename : str) : result unit :=
  lib (PdfFile filename (split_sep (lit nl) notes)).

Definition export_word (lib : Library) (notes filename : str) : result unit :=
  lib (WordFile filename (split_sep (lit nl) notes)).

Definition export_json (lib : Library) (notes filename : str) : result unit :=
  lib (JsonFile filename notes).

Definition export_excel (lib : Library) (notes filename : str) : result unit :=
  let lines := split_sep (lit nl) notes in
  lib (ExcelFile filename lines).

Definition export_chart (lib : Library) (data_dict : list (str * Z))
           (filename : str) : result unit :=
  let labels := map fst data_dict in
  let values := map snd data_dict in
  lib (ChartFile filename labels values).

(** [export_notes], for notes that are a text, as [generate_notes] returns
    them: the exporter of charts reads [notes.keys()], which a text does
    not have, before it writes anything. *)
Definition export_notes (lib : Library) (notes filename format : str)
  : result unit :=
  let format := lower format in
  if str_eqb format (lit "txt") then export_txt lib notes filename
  else if str_eqb format (lit "pdf") then export_pdf lib notes filename
  else if str_eqb format (lit "word") then export_word lib notes filename
  else if str_eqb format (lit "json") then export_json lib notes filename
  else if str_eqb format (lit "excel") then export_excel lib notes filename
  else if str_eqb format (lit "chart")
  then Raise (PyExc "AttributeError"
                    (lit "'str' object has no attribute 'keys'"))
  else Raise (PyExc "ValueError"
                    (lit "Unsupported export format: " ++ format)).

(* ================================================================== *)
(** ** The file processor: [class FileProcessor] *)
(* ================================================================== *)

(** [s.endswith(suffix)]. *)
Definition endswith (suffix s : str) : bool :=
  startswith (rev suffix) (rev s).

(** [s.endswith((suffix1, suffix2, ...))]. *)
Definition endswith_any (suffixes : list str) (s : str) : bool :=
  existsb (fun suffix => endswith suffix s) suffixes.

(** [os.path.join(a, b)] on a POSIX system. *)
Definition path_join (a b : str) : str :=
  if startswith (lit "/") b then b
  else if negb (nonempty a) || endswith (lit "/") a then a ++ b
       else a ++ lit "/" ++ b.

(** What the file system and the extraction libraries answer for a path:
    the names in a directory, the text of a text file, the pages of a PDF
    (each with what [extract_text] gives), the paragraphs of a Word
    document, the sheets of a workbook with their rows of cells ([None] for
    an empty cell, else [str(cell)]), the text read in an image. *)
Record FileSystem : Type := {
  listdir : str -> result (list str);
  read_text : str -> result str;
  pdf_pages : str -> result (list (result str));
  docx_paragraphs : str -> result (list str);
  workbook_sheets : str -> result (list (list (list (option str))));
  image_to_string : str -> result str
}.

(** [for page in reader.pages: text += page.extract_text() + newline]. *)
Fixpoint read_pages (text : str) (pages : list (result str)) : result str :=
  match pages with
  | [] => Ok text
  | page :: pages' =>
      extracted <- page ;;
      read_pages (text ++ extracted ++ lit nl) pages'
  end.

Definition _read_pdf (fs : FileSystem) (filepath : str) : str :=
  match (pages <- pdf_pages fs filepath ;; read_pages [] pages) with
  | Ok text => text
  | Raise e => lit "Error reading PDF " ++ filepath ++ lit ": " ++ exn_str e
  end.

Definition _read_docx (fs : FileSystem) (filepath : str) : str :=
  match docx_paragraphs fs filepath with
  | Ok paragraphs =>
      fold_left (fun text para => text ++ para ++ lit nl) paragraphs []
  | Raise e => lit "Error reading DOCX " ++ filepath ++ lit ": " ++ exn_str e
  end.

(** One row of a sheet: the cells joined by a space, an empty cell being
    the empty text. *)
Definition row_text (row : list (option str)) : str :=
  join (lit " ")
       (map (fun cell => match cell with Some s => s | None => [] end) row).

Definition _read_excel (fs : FileSystem) (filepath : str) : str :=
  match workbook_sheets fs filepath with
  | Ok sheets =>
      fold_left
        (fun text ws =>
           fold_left (fun text row => text ++ row_text row ++ lit nl) ws text)
        sheets []
  | Raise e => lit "Error reading Excel " ++ filepath ++ lit ": " ++ exn_str e
  end.

Definition _read_image_text (fs : FileSystem) (filepath : str) : str :=
  match image_to_string fs filepath with
  | Ok text => text
  | Raise e => lit "Error reading image " ++ filepath ++ lit ": " ++ exn_str e
  end.

Definition image_suffixes : list str :=
  [lit ".png"; lit ".jpg"; lit ".jpeg"; lit ".bmp"; lit ".gif"].

Definition process_file (fs : FileSystem) (filepath : str) : result str :=
  if endswith (lit ".txt") filepath then read_text fs filepath
  else if endswith (lit ".pdf") filepath then Ok (_read_pdf fs filepath)
  else if endswith (lit ".docx") filepath then Ok (_read_docx fs filepath)
  else if endswith (lit ".xlsx") filepath || endswith (lit ".xls") filepath
  then Ok (_read_excel fs filepath)
  else if endswith_any image_suffixes (lower filepath)
  then Ok (_read_image_text fs filepath)
  else Ok (lit "Unsupported file type: " ++ filepath).

(** One round of the loop of [load_documents]. *)
Definition load_step (fs : FileSystem) (documents_dir : str)
           (documents : list str) (filename : str) : result (list str) :=
  let filepath := path_join documents_dir filename in
  if endswith (lit ".txt") filename then
    content <- read_text fs filepath ;;
    Ok (documents ++ [content])
  else if endswith (lit ".pdf") filename
  then Ok (documents ++ [_read_pdf fs filepath])
  else if endswith (lit ".docx") filename
  then Ok (documents ++ [_read_docx fs filepath])
  else if endswith (lit ".xlsx") filename || endswith (lit ".xls") filename
  then Ok (documents ++ [_read_excel fs filepath])
  else if endswith_any image_suffixes (lower filename)
  then Ok (documents ++ [_read_image_text fs filepath])
  else Ok documents.

Fixpoint load_loop (fs : FileSystem) (documents_dir : str)
         (documents : list str) (filenames : list str) : result (list str) :=
  match filenames with
  | [] => Ok documents
  | filename :: filenames' =>
      documents' <- load_step fs documents_dir documents filename ;;
      load_loop fs documents_dir documents' filenames'
  end.

Definition load_documents (fs : FileSystem) (documents_dir : str)
  : result (list str) :=
  filenames <- listdir fs documents_dir ;;
  load_loop fs documents_dir [] filenames.

(* ================================================================== *)
(** ** The application: the study streak of [StudyMateApp] *)
(* ================================================================== *)

(** The two entries of the session state the streak counter reads and
    writes; a date is the number of its day. *)
Record Streak : Type := {
  current_streak : Z;
  last_study_date : option Z
}.

(** The session state of a new session. *)
Definition new_streak : Streak :=
  {| current_streak := 0; last_study_date := None |}.

(** The update of [render_streak_counter] when it runs on day [today]. *)
Definition render_streak_counter (today : Z) (state : Streak) : Streak :=
  match last_study_date state with
  | Some last_study =>
      if last_study =? today then state
      else if last_study =? today - 1
      then {| current_streak := current_streak state + 1;
              last_study_date := Some today |}
      else if last_study <? today - 1
      then {| current_streak := 1; last_study_date := Some today |}
      else {| current_streak := 1; last_study_date := Some today |}
  | None => {| current_streak := 1; last_study_date := Some today |}
  end.

(* ================================================================== *)
(** ** Notions the properties are stated with *)
(* ================================================================== *)

(** The least integer not below [a / b], for a positive [b]. *)
Definition ceil_div (a b : Z) : Z := (a + b - 1) / b.

(** The number of chunks the written specification announces for a text
    of [W] words. *)
Definition announced_chunk_count (W : Z) : Z :=
  ceil_div (Z.max 0 (W - 200)) 1800.

(** A word: at least one character, none of them whitespace. *)
Definition is_word (w : str) : bool :=
  nonempty w && forallb (fun c => negb (isspace c)) w.

(** The windows of [size] items taken every [step] items, as long as items
    remain. *)
Fixpoint windows {A} (fuel size step : nat) (l : list A) : list (list A) :=
  match fuel, l with
  | O, _ | _, [] => []
  | S fuel', _ :: _ => firstn size l :: windows fuel' size step (skipn step l)
  end.

(** The chunks put back together: the words of the first chunk, then the
    words of every later chunk but its first [overlap] ones. *)
Definition dechunk (overlap : Z) (chunks : list str) : list str :=
  match chunks with
  | [] => []
  | c :: cs =>
      split_ws c
      ++ flat_map (fun c' => slice (split_ws c') (Some overlap) None) cs
  end.

(** A text of [n] words, each the letter a. *)
Definition text_of_words (n : nat) : str :=
  List.concat (repeat (lit "a ") n).

(** The row count of the vector index, none before the index exists. *)
Definition index_rows (self : RAGStudyAssistant) : Z :=
  match vector_index self with
  | None => 0
  | Some ix => ntotal ix
  end.

(** Invariant I1: as many stored chunks as rows in the vector index. *)
Definition I1 (self : RAGStudyAssistant) : Prop :=
  len (documents self) = index_rows self.

(** The index, once it exists, has dimension [dim]. *)
Definition index_dim_is (self : RAGStudyAssistant) (dim : Z) : Prop :=
  match vector_index self with
  | None => True
  | Some ix => d ix = dim
  end.

(** The embedding of a batch succeeds: no exception, and one row of [dim]
    columns per text. *)
Definition batch_succeeds (self : RAGStudyAssistant) (dim : Z)
           (batch : list str) : Prop :=
  exists m, encode self batch = Ok m
            /\ shape1 m = dim /\ len (rows m) = len batch.

(** Every batch that [add_documents] cuts from [all_chunks] succeeds. *)
Definition every_batch_succeeds (self : RAGStudyAssistant) (dim : Z)
           (all_chunks : list str) : Prop :=
  forall k, 0 <= k -> batch_size * k < len all_chunks ->
            batch_succeeds self dim
                           (slice all_chunks (Some (batch_size * k))
                                  (Some (batch_size * k + batch_size))).

(** The documents and, in the same order, the chunks of each. *)
Definition chunks_of_documents (self : RAGStudyAssistant) (docs : list str)
           (per_doc : list (list str)) : Prop :=
  Forall2 (fun doc chunks => _chunk_text self doc = Ok chunks) docs per_doc.

(** A sample embedder: a text becomes the pair of its number of characters
    and its number of words. *)
Definition sample_embedder : Embedder :=
  fun texts =>
    Ok {| shape1 := 2;
          rows := map (fun t => [len t; len (split_ws t)]) texts |}.

(** An embedder whose every call raises. *)
Definition failing_embedder : Embedder :=
  fun _ => Raise (PyExc "RuntimeError" (lit "out of memory")).

(** An embedder that raises on every batch holding the text [gamma] and
    answers as the sample embedder on the others. *)
Definition flaky_embedder : Embedder :=
  fun texts =>
    if existsb (str_eqb (lit "gamma")) texts
    then Raise (PyExc "RuntimeError" (lit "out of memory"))
    else sample_embedder texts.

(** A sample sequence-to-sequence pipeline, which answers with its prompt. *)
Definition echo_pipeline : Pipeline :=
  {| task := lit "text2text-generation";
     call := fun prompt _ => Ok [Some prompt] |}.

Definition sample_documents : list str :=
  [lit "alpha beta"; lit "gamma"; lit "delta epsilon zeta"].

(** A corpus of three chunks: the sample documents added to a new service. *)
Definition sample_service : RAGStudyAssistant :=
  snd (add_documents (init (Some sample_embedder) (Some echo_pipeline))
                     sample_documents).

(** The formats the two tables of [query] know. *)
Definition known_formats : list str := map fst format_instructions.

(** A causal pipeline that echoes the prompt, continues, and repeats the
    prompt once more. *)
Definition repeating_pipeline : Pipeline :=
  {| task := lit "text-generation";
     call := fun prompt _ => Ok [Some (prompt ++ lit " yes " ++ prompt)] |}.

(** A pipeline whose every call raises. *)
Definition failing_pipeline : Pipeline :=
  {| task := lit "text2text-generation";
     call := fun _ _ => Raise (PyExc "RuntimeError" (lit "out of memory")) |}.

(** Six flashcards in the format of the prompt's examples. *)
Definition six_flashcards : str :=
  flashcard_examples
  ++ lit (nl ++ nl ++ "Flashcard 6:" ++ nl ++ "Question: What is ice?" ++ nl
          ++ "Answer: Frozen water").

(** Thirty documents of one word each, of 1 to 30 letters. *)
Definition thirty_documents : list str :=
  map (fun n => repeat "a"%char (S n)) (seq 0 30).

(** A corpus of thirty chunks and its index. *)
Definition full_service : RAGStudyAssistant :=
  snd (add_documents (init (Some sample_embedder) (Some echo_pipeline))
                     thirty_documents).

Definition full_index : IndexFlatL2 :=
  match vector_index full_service with
  | Some ix => ix
  | None => new_index 0
  end.

(** The formats [export_notes] can export notes that are a text to. *)
Definition text_export_formats : list str :=
  [lit "txt"; lit "pdf"; lit "word"; lit "json"; lit "excel"].

(** The formats [export_notes] knows. *)
Definition export_formats : list str := lit "chart" :: text_export_formats.

(** A library that refuses every Word document and writes the rest. *)
Definition no_word_library : Library :=
  fun export =>
    match export with
    | WordFile _ _ =>
        Raise (PyExc "ValueError"
                     (lit "All strings must be XML compatible"))
    | _ => Ok tt
    end.

(** The newline character. *)
Definition newline : ascii := "010"%char.

(** The carriage return character. *)
Definition carriage_return : ascii := "013"%char.

(** The text the flashcard parser works on: the generated text with its
    line endings turned into newlines. *)
Definition normalize_newlines (text : str) : str :=
  replace (lit cr) (lit nl) (replace (lit (cr ++ nl)) (lit nl) text).

(** A flashcard as the parser makes them: a question and an answer that
    are not empty and have no whitespace around them, never reviewed. *)
Definition well_formed_card (card : Flashcard) : Prop :=
  nonempty (question card) = true
  /\ nonempty (answer card) = true
  /\ strip (question card) = question card
  /\ strip (answer card) = answer card
  /\ review_count card = 0
  /\ last_reviewed card = None.

(** [[f(x) for x in l]] when [f] may raise. *)
Fixpoint map_result {A B} (f : A -> result B) (l : list A) : result (list B) :=
  match l with
  | [] => Ok []
  | x :: l' =>
      y <- f x ;;
      ys <- map_result f l' ;;
      Ok (y :: ys)
  end.

(** The file names [load_documents] reads. *)
Definition supported_file (filename : str) : bool :=
  endswith (lit ".txt") filename
  || endswith (lit ".pdf") filename
  || endswith (lit ".docx") filename
  || endswith (lit ".xlsx") filename
  || endswith (lit ".xls") filename
  || endswith_any image_suffixes (lower filename).

(** The streak counter run on each of the days, in order. *)
Definition render_on_days (days : list Z) (state : Streak) : Streak :=
  fold_left (fun st day => render_streak_counter day st) days state.

(** [n] days in a row from the day [first]. *)
Definition days_in_a_row (first : Z) (n : nat) : list Z :=
  map (fun k => first + Z.of_nat k) (seq 0 n).

(* ================================================================== *)
(** ** Properties *)
(* ================================================================== *)

(** *** Built-ins *)

Lemma len_nonneg {A} (l : list A) : 0 <= len l.
Proof. unfold len; lia. Qed.

Lemma nonempty_length {A} (l : list A) :
  nonempty l = true <-> (0 < length l)%nat.
Proof. destruct l; simpl; split; intros; try lia; congruence. Qed.

Lemma firstn_min_length {A} (n : nat) (l : list A) :
  firstn (Nat.min n (length l)) l = firstn n l.
Proof.
  destruct (Nat.le_ge_cases n (length l)) as [H | H].
  - now rewrite Nat.min_l.
  - rewrite Nat.min_r by lia. now rewrite firstn_all, firstn_all2.
Qed.

(** A slice with both bounds inside the list reads [hi - lo] items from
    position [lo]. *)
Lemma slice_window {A} (l : list A) (i size : Z) :
  0 <= i -> 0 <= size ->
  slice l (Some i) (Some (i + size))
  = firstn (Z.to_nat size) (skipn (Z.to_nat i) l).
Proof.
  intros Hi Hs. unfold slice, clamp_bound, len.
  destruct (Z.ltb_spec i 0); [lia |].
  destruct (Z.ltb_spec (i + size) 0); [lia |].
  destruct (Z.le_gt_cases (Z.of_nat (length l)) i) as [Hout | Hin].
  - rewrite !skipn_all2 by lia. now rewrite !firstn_nil.
  - rewrite Z.min_l with (n := i) by lia.
    rewrite <- (firstn_min_length (Z.to_nat size)).
    f_equal. rewrite length_skipn. lia.
Qed.

Lemma index_head {A} (x : A) (l : list A) : index (x :: l) 0 = Ok x.
Proof.
  unfold index. change (0 <? 0) with false. cbv iota.
  destruct (Z.leb_spec (len (x :: l)) 0) as [H | H]; [| reflexivity].
  unfold len in H. simpl in H. lia.
Qed.

Lemma slice_from {A} (l : list A) (i : Z) :
  0 <= i -> slice l (Some i) None = skipn (Z.to_nat i) l.
Proof.
  intros Hi. unfold slice, clamp_bound, len.
  destruct (Z.ltb_spec i 0); [lia |].
  destruct (Z.le_gt_cases (Z.of_nat (length l)) i) as [Hout | Hin].
  - rewrite !skipn_all2 by lia. now rewrite firstn_nil.
  - rewrite Z.min_l by lia. apply firstn_all2. rewrite length_skipn. lia.
Qed.

Lemma slice_to {A} (l : list A) (j : Z) :
  0 <= j -> slice l None (Some j) = firstn (Z.to_nat j) l.
Proof.
  intros Hj. unfold slice, clamp_bound, len.
  destruct (Z.ltb_spec j 0); [lia |].
  simpl. rewrite Z.sub_0_r, <- (firstn_min_length (Z.to_nat j)).
  f_equal. lia.
Qed.

(** *** Words: [split] and [join] *)

Lemma split_ws_from_word (w cur rest : str) :
  forallb (fun c => negb (isspace c)) w = true ->
  split_ws_from cur (w ++ rest) = split_ws_from (cur ++ w) rest.
Proof.
  revert cur. induction w as [| c w IH]; intros cur Hw; simpl.
  - now rewrite app_nil_r.
  - simpl in Hw. apply andb_true_iff in Hw as [Hc Hw].
    apply negb_true_iff in Hc. rewrite Hc, IH by assumption.
    now rewrite <- app_assoc.
Qed.

(** Joining words with a space and splitting again gives the words. *)
Lemma split_ws_join (ws : list str) :
  Forall (fun w => is_word w = true) ws ->
  split_ws (join (lit " ") ws) = ws.
Proof.
  induction ws as [| w ws IH]; intros Hws; [reflexivity |].
  apply Forall_cons_iff in Hws as [Hw Hws].
  apply andb_true_iff in Hw as [Hne Hw].
  destruct ws as [| w' ws'].
  - simpl. unfold split_ws.
    pose proof (split_ws_from_word w [] [] Hw) as E.
    rewrite app_nil_r in E. rewrite E. simpl. now rewrite Hne.
  - change (join (lit " ") (w :: w' :: ws'))
      with (w ++ " "%char :: join (lit " ") (w' :: ws')).
    unfold split_ws. rewrite split_ws_from_word by assumption.
    cbn [app split_ws_from]. change (isspace " ") with true. cbv iota.
    rewrite Hne. f_equal. now apply IH.
Qed.

(** What [split] returns are words. *)
Lemma split_ws_from_words (s cur : str) :
  forallb (fun c => negb (isspace c)) cur = true ->
  Forall (fun w => is_word w = true) (split_ws_from cur s).
Proof.
  revert cur. induction s as [| c s IH]; intros cur Hcur; simpl.
  - destruct (nonempty cur) eqn:Hne; constructor; [| constructor].
    unfold is_word. now rewrite Hne, Hcur.
  - destruct (isspace c) eqn:Hc.
    + destruct (nonempty cur) eqn:Hne; [constructor |]; try now apply IH.
      unfold is_word. now rewrite Hne, Hcur.
    + apply IH. rewrite forallb_app, Hcur. simpl. now rewrite Hc.
Qed.

Lemma split_ws_words (s : str) :
  Forall (fun w => is_word w = true) (split_ws s).
Proof. now apply split_ws_from_words. Qed.

Lemma split_ws_blank (s : str) :
  forallb isspace s = true -> split_ws s = [].
Proof.
  unfold split_ws. induction s as [| c s IH]; intros Hs; [reflexivity |].
  simpl in *. apply andb_true_iff in Hs as [Hc Hs]. rewrite Hc. now apply IH.
Qed.

(** *** Windows *)

Lemma ceil_div_step (n s : Z) :
  0 < n -> 0 < s -> ceil_div n s = 1 + ceil_div (Z.max 0 (n - s)) s.
Proof.
  intros Hn Hs. unfold ceil_div.
  destruct (Z.le_gt_cases n s) as [Hle | Hgt].
  - rewrite Z.max_l by lia. rewrite (Z.div_small (0 + s - 1)) by lia.
    symmetry. apply Z.div_unique with (r := n - 1); lia.
  - rewrite Z.max_r by lia.
    replace (n + s - 1) with (n - s + s - 1 + 1 * s) by lia.
    rewrite Z.div_add by lia. lia.
Qed.

Section Windows.
Context {A : Type}.
Variables size step : nat.
Hypothesis step_pos : (1 <= step)%nat.

Lemma windows_cons (fuel : nat) (l : list A) :
  l <> [] ->
  windows (S fuel) size step l
  = firstn size l :: windows fuel size step (skipn step l).
Proof. destruct l; [congruence | reflexivity]. Qed.

Lemma windows_length (fuel : nat) (l : list A) :
  (length l <= fuel)%nat ->
  len (windows fuel size step l) = ceil_div (len l) (Z.of_nat step).
Proof.
  unfold len. revert l.
  induction fuel as [| fuel IH]; intros l Hl.
  - destruct l; cbn [length] in *; [| lia].
    symmetry. apply Z.div_small. lia.
  - destruct l as [| x l]; [symmetry; apply Z.div_small; simpl; lia |].
    rewrite windows_cons by discriminate.
    assert (Hskip : (length (skipn step (x :: l)) <= fuel)%nat)
      by (rewrite length_skipn; cbn [length] in *; lia).
    assert (Hpos : 0 < Z.of_nat (length (x :: l))) by (cbn [length]; lia).
    set (n := length (x :: l)) in *.
    cbn [length]. rewrite Nat2Z.inj_succ, (IH _ Hskip), length_skipn.
    fold n. rewrite Nat2Z.inj_sub_max.
    rewrite (ceil_div_step (Z.of_nat n)) by lia. lia.
Qed.

Lemma windows_nth (j fuel : nat) (l : list A) :
  (length l <= fuel)%nat -> (j * step < length l)%nat ->
  nth_error (windows fuel size step l) j
  = Some (firstn size (skipn (j * step) l)).
Proof.
  revert fuel l. induction j as [| j IH]; intros fuel l Hf Hj.
  - destruct fuel, l; cbn [length] in *; try lia; reflexivity.
  - destruct fuel as [| fuel]; [lia |].
    destruct l as [| x l]; [cbn [length] in Hj; lia |].
    rewrite windows_cons by discriminate. cbn [nth_error].
    rewrite IH; rewrite ?length_skipn; cbn [length] in *; try lia.
    rewrite skipn_skipn. do 3 f_equal. lia.
Qed.

Lemma windows_Forall (P : A -> Prop) (fuel : nat) (l : list A) :
  Forall P l -> Forall (Forall P) (windows fuel size step l).
Proof.
  revert l. induction fuel as [| fuel IH]; intros l Hl; [constructor |].
  destruct l as [| x l]; [constructor |].
  rewrite windows_cons by discriminate. constructor.
  - rewrite <- (firstn_skipn size (x :: l)) in Hl.
    now apply Forall_app in Hl.
  - apply IH. rewrite <- (firstn_skipn step (x :: l)) in Hl.
    now apply Forall_app in Hl.
Qed.
End Windows.

(** Dropping the overlap of every window gives the list but its first
    [overlap] items. *)
Lemma windows_drop_overlap {A} (overlap step fuel : nat) (l : list A) :
  (1 <= step)%nat -> (length l <= fuel)%nat ->
  flat_map (skipn overlap) (windows fuel (step + overlap) step l)
  = skipn overlap l.
Proof.
  intros Hstep. revert l. induction fuel as [| fuel IH]; intros l Hl.
  - destruct l; cbn [length] in *; [| lia]. now rewrite skipn_nil.
  - destruct l as [| x l]; [now rewrite skipn_nil |].
    rewrite windows_cons by discriminate. cbn [flat_map].
    rewrite IH by (rewrite length_skipn; cbn [length] in *; lia).
    rewrite skipn_firstn_comm, skipn_skipn.
    replace (step + overlap - overlap)%nat with step by lia.
    replace (overlap + step)%nat with (step + overlap)%nat by lia.
    rewrite <- skipn_skipn. apply firstn_skipn.
Qed.

(** The windows put back together. *)
Lemma windows_reassemble {A} (overlap step fuel : nat) (l : list A) :
  (1 <= step)%nat -> (length l <= fuel)%nat ->
  match windows fuel (step + overlap) step l with
  | [] => []
  | w :: ws => w ++ flat_map (skipn overlap) ws
  end = l.
Proof.
  intros Hstep Hl. destruct fuel as [| fuel].
  - destruct l; cbn [length] in *; [reflexivity | lia].
  - destruct l as [| x l]; [reflexivity |].
    rewrite windows_cons by discriminate.
    rewrite windows_drop_overlap
      by (rewrite ?length_skipn; cbn [length] in *; lia).
    rewrite skipn_skipn.
    replace (overlap + step)%nat with (step + overlap)%nat by lia.
    apply firstn_skipn.
Qed.

(** *** The chunker *)

(** The loop of [_chunk_text] builds the windows of the words. *)
Lemma chunk_loop_windows (self : RAGStudyAssistant) (words : list str)
      (step : Z) :
  0 < chunk_size self -> 0 < step ->
  forall (fuel : nat) (i : Z) (chunks : list str),
    0 <= i ->
    fold_left (chunk_step self words) (range_up fuel i (len words) step) chunks
    = chunks
      ++ map (join (lit " "))
             (windows fuel (Z.to_nat (chunk_size self)) (Z.to_nat step)
                      (skipn (Z.to_nat i) words)).
Proof.
  intros Hsize Hstep. induction fuel as [| fuel IH]; intros i chunks Hi.
  - simpl. now rewrite app_nil_r.
  - cbn [range_up]. destruct (Z.ltb_spec i (len words)) as [Hin | Hout].
    + cbn [fold_left]. rewrite IH by lia.
      assert (Hne : skipn (Z.to_nat i) words <> []).
      { intros E. apply skipn_all_iff in E. unfold len in Hin. lia. }
      rewrite windows_cons by assumption.
      unfold chunk_step. rewrite slice_window by lia.
      assert (Hchunk : nonempty (firstn (Z.to_nat (chunk_size self))
                                        (skipn (Z.to_nat i) words)) = true).
      { destruct (skipn (Z.to_nat i) words); [congruence |].
        destruct (Z.to_nat (chunk_size self)) eqn:E; [lia | reflexivity]. }
      rewrite Hchunk, <- app_assoc. cbn [map app].
      rewrite skipn_skipn.
      replace (Z.to_nat step + Z.to_nat i)%nat with (Z.to_nat (i + step))
        by lia.
      reflexivity.
    + cbn [fold_left]. rewrite skipn_all2 by (unfold len in Hout; lia).
      simpl. now rewrite app_nil_r.
Qed.

Lemma chunk_text_windows (self : RAGStudyAssistant) (text : str) :
  0 < chunk_size self -> chunk_overlap self < chunk_size self ->
  _chunk_text self text
  = Ok (map (join (lit " "))
            (windows (length (split_ws text))
                     (Z.to_nat (chunk_size self))
                     (Z.to_nat (chunk_size self - chunk_overlap self))
                     (split_ws text))).
Proof.
  intros Hsize Hstep. unfold _chunk_text, range.
  destruct (Z.eqb_spec (chunk_size self - chunk_overlap self) 0); [lia |].
  destruct (Z.ltb_spec 0 (chunk_size self - chunk_overlap self)); [| lia].
  cbn [bind]. rewrite chunk_loop_windows by lia.
  rewrite Z.sub_0_r. unfold len. now rewrite Nat2Z.id.
Qed.

(** The words of the chunks made from windows of words are the windows. *)
Lemma split_ws_join_windows (ws : list (list str)) :
  Forall (Forall (fun w => is_word w = true)) ws ->
  map split_ws (map (join (lit " ")) ws) = ws.
Proof.
  induction 1 as [| w ws Hw _ IH]; [reflexivity |].
  cbn [map]. now rewrite split_ws_join, IH.
Qed.

Lemma ceil_div_above (n s j : Z) :
  0 < s -> 0 <= j < ceil_div n s -> s * j < n.
Proof.
  unfold ceil_div. intros Hs Hj.
  destruct (Z.le_gt_cases n (s * j)) as [Hle | ]; [| lia].
  assert (H : (n + s - 1) / s <= (s * j + s - 1) / s)
    by (apply Z.div_le_mono; lia).
  replace (s * j + s - 1) with (s - 1 + j * s) in H by lia.
  rewrite Z.div_add, (Z.div_small (s - 1)) in H by lia. lia.
Qed.

(** The chunker on any configuration with a positive size and a positive
    step [chunk_size - chunk_overlap]. *)
Lemma chunk_text_spec (self : RAGStudyAssistant) (text : str) :
  let size := chunk_size self in
  let step := chunk_size self - chunk_overlap self in
  let words := split_ws text in
  0 < size -> 0 < step ->
  exists chunks,
    _chunk_text self text = Ok chunks
    /\ len chunks = ceil_div (len words) step
    /\ (forall j, 0 <= j < len chunks ->
        exists c,
          index chunks j = Ok c
          /\ split_ws c = slice words (Some (step * j)) (Some (step * j + size))
          /\ len (split_ws c) = Z.min size (len words - step * j)
          /\ 1 <= len (split_ws c) <= size).
Proof.
  intros size step words Hsize Hstep.
  pose proof (chunk_text_windows self text Hsize) as Hrun.
  fold size step words in Hrun.
  set (ws := windows (length words) (Z.to_nat size) (Z.to_nat step) words)
    in Hrun.
  assert (Hcount : len (map (join (lit " ")) ws)
                   = ceil_div (len words) step).
  { unfold len at 1. rewrite length_map. fold (len ws). unfold ws.
    rewrite windows_length by lia. f_equal. lia. }
  exists (map (join (lit " ")) ws). split; [apply Hrun; lia |].
  split; [exact Hcount |].
  intros j Hj. rewrite Hcount in Hj.
  pose proof (ceil_div_above _ _ _ Hstep Hj) as Hlt.
  set (w := firstn (Z.to_nat size) (skipn (Z.to_nat j * Z.to_nat step) words)).
  assert (Hslice : slice words (Some (step * j)) (Some (step * j + size)) = w).
  { rewrite slice_window by lia. unfold w. do 2 f_equal. lia. }
  assert (Hw : Forall (fun x => is_word x = true) w).
  { pose proof (split_ws_words text) as Hall. fold words in Hall.
    rewrite <- (firstn_skipn (Z.to_nat j * Z.to_nat step) words) in Hall.
    apply Forall_app in Hall as [_ Hall].
    rewrite <- (firstn_skipn (Z.to_nat size) (skipn _ words)) in Hall.
    now apply Forall_app in Hall. }
  assert (Hlen : len w = Z.min size (len words - step * j)).
  { unfold w, len in *. rewrite length_firstn, length_skipn. lia. }
  exists (join (lit " ") w). rewrite split_ws_join by assumption.
  split; [| split; [| split]]; try lia; [| now symmetry].
  unfold index. destruct (Z.ltb_spec j 0); [lia |].
  rewrite Hcount. destruct (Z.ltb_spec j 0); [lia |].
  destruct (Z.leb_spec (ceil_div (len words) step) j); [lia |].
  cbn [orb]. unfold ws. rewrite nth_error_map, windows_nth; try lia.
  - reflexivity.
  - unfold len in Hlt. nia.
Qed.

(** C1 (as amended).  With [chunk_size = 2000] and [chunk_overlap = 200],
    a text of [W] words gives exactly [ceil(W / 1800)] chunks; the chunk
    of rank [j] (from 0) holds the words [1800 j] to [1800 j + 2000] of the
    text, that is [min(2000, W - 1800 j)] words, at least one and at most
    2000; an empty or whitespace-only text gives no chunk. *)
Theorem chunk_count_and_sizes (self : RAGStudyAssistant) (text : str) :
  chunk_size self = 2000 -> chunk_overlap self = 200 ->
  let words := split_ws text in
  exists chunks,
    _chunk_text self text = Ok chunks
    /\ len chunks = ceil_div (len words) 1800
    /\ (forall j, 0 <= j < len chunks ->
        exists c,
          index chunks j = Ok c
          /\ split_ws c = slice words (Some (1800 * j)) (Some (1800 * j + 2000))
          /\ len (split_ws c) = Z.min 2000 (len words - 1800 * j)
          /\ 1 <= len (split_ws c) <= 2000)
    /\ (forallb isspace text = true -> chunks = []).
Proof.
  intros Hsize Hoverlap words.
  pose proof (chunk_text_spec self text) as H. cbv zeta in H.
  rewrite Hsize, Hoverlap in H. change (2000 - 200) with 1800 in H.
  destruct H as (chunks & Hrun & Hcount & Hchunks); try lia.
  exists chunks. repeat split; try assumption; try apply Hchunks; try lia.
  intros Hblank. rewrite (split_ws_blank text Hblank) in Hcount.
  change (ceil_div (len []) 1800) with 0 in Hcount.
  destruct chunks; [reflexivity | unfold len in Hcount; simpl in Hcount; lia].
Qed.

Lemma chunk_count_and_sizes_witness :
  (exists chunks,
      _chunk_text (init None None) (lit "revise the notes") = Ok chunks
      /\ len chunks = 1
      /\ exists c, index chunks 0 = Ok c /\ len (split_ws c) = 3)
  /\ _chunk_text (init None None) (lit "   ") = Ok [].
Proof.
  split.
  - destruct (chunk_count_and_sizes (init None None) (lit "revise the notes")
                                    eq_refl eq_refl)
      as (chunks & Hrun & Hcount & Hchunks & _).
    exists chunks. split; [exact Hrun |]. split; [exact Hcount |].
    destruct (Hchunks 0) as (c & Hc & _ & Hlen & _).
    + split; [discriminate | rewrite Hcount; reflexivity].
    + exists c. split; [exact Hc | exact Hlen].
  - destruct (chunk_count_and_sizes (init None None) (lit "   ")
                                    eq_refl eq_refl)
      as (chunks & Hrun & _ & _ & Hblank).
    rewrite (Hblank eq_refl) in Hrun. exact Hrun.
Defined.

(** C1 (as stated) fails: the one-word text [a] gives one chunk, where the
    announced count [ceil(max(0, W - 200) / 1800)] is 0. *)
Lemma chunk_count_not_as_announced :
  let text := lit "a" in
  let W := len (split_ws text) in
  0 < W
  /\ exists chunks,
       _chunk_text (init None None) text = Ok chunks
       /\ len chunks = 1
       /\ announced_chunk_count W = 0
       /\ len chunks <> announced_chunk_count W.
Proof.
  split; [reflexivity |]. exists [lit "a"].
  repeat split; discriminate.
Qed.

(** A text of 3700 words gives three chunks, of 2000, 1900 and 100 words:
    the chunk before the last is shorter than 2000 words too. *)
Example chunk_sizes_3700_words :
  match _chunk_text (init None None) (text_of_words 3700) with
  | Ok chunks => map (fun c => len (split_ws c)) chunks
  | Raise _ => []
  end = [2000; 1900; 100].
Proof. vm_compute. reflexivity. Qed.

Lemma dechunk_joined (overlap : Z) (ws : list (list str)) :
  0 <= overlap ->
  Forall (Forall (fun w => is_word w = true)) ws ->
  dechunk overlap (map (join (lit " ")) ws)
  = match ws with
    | [] => []
    | w :: ws' => w ++ flat_map (skipn (Z.to_nat overlap)) ws'
    end.
Proof.
  intros Hov Hws. destruct Hws as [| w ws Hw Hws]; [reflexivity |].
  cbn [map dechunk]. rewrite split_ws_join by assumption. f_equal.
  induction Hws as [| w' ws' Hw' _ IH]; [reflexivity |].
  cbn [map flat_map]. now rewrite split_ws_join, slice_from, IH.
Qed.

(** The chunks of any configuration with [0 <= chunk_overlap < chunk_size]
    put back together are the words of the text. *)
Lemma chunk_text_reassemble (self : RAGStudyAssistant) (text : str) :
  0 <= chunk_overlap self < chunk_size self ->
  exists chunks,
    _chunk_text self text = Ok chunks
    /\ dechunk (chunk_overlap self) chunks = split_ws text.
Proof.
  intros Hcfg. eexists. split; [apply chunk_text_windows; lia |].
  rewrite dechunk_joined;
    [| lia | apply windows_Forall, split_ws_words].
  replace (Z.to_nat (chunk_size self))
    with (Z.to_nat (chunk_size self - chunk_overlap self)
          + Z.to_nat (chunk_overlap self))%nat by lia.
  apply windows_reassemble; lia.
Qed.

(** C9.  With [chunk_size = 2000] and [chunk_overlap = 200], the words of
    the first chunk followed by the words of every later chunk but its
    first 200 are exactly the words of the text, in order. *)
Theorem chunks_reassemble_the_words (self : RAGStudyAssistant) (text : str) :
  chunk_size self = 2000 -> chunk_overlap self = 200 ->
  exists chunks,
    _chunk_text self text = Ok chunks
    /\ dechunk 200 chunks = split_ws text.
Proof.
  intros Hsize Hoverlap.
  destruct (chunk_text_reassemble self text) as (chunks & Hrun & Hwords);
    [lia |].
  exists chunks. split; [exact Hrun | now rewrite <- Hoverlap].
Qed.

Lemma chunks_reassemble_the_words_witness :
  exists chunks,
    _chunk_text (init None None) (text_of_words 2500) = Ok chunks
    /\ dechunk 200 chunks = split_ws (text_of_words 2500).
Proof.
  exact (chunks_reassemble_the_words (init None None) (text_of_words 2500)
                                     eq_refl eq_refl).
Defined.

(** *** The embedding indexer *)

Lemma chunk_all_spec (self : RAGStudyAssistant) (docs : list str) :
  0 < chunk_size self -> chunk_overlap self < chunk_size self ->
  forall all_chunks,
  exists per_doc,
    chunks_of_documents self docs per_doc
    /\ chunk_all self all_chunks docs = Ok (all_chunks ++ concat per_doc).
Proof.
  intros Hsize Hstep. induction docs as [| doc docs IH]; intros all_chunks.
  - exists []. split; [constructor | simpl; now rewrite app_nil_r].
  - destruct (IH (all_chunks
                  ++ map (join (lit " "))
                         (windows (length (split_ws doc))
                                  (Z.to_nat (chunk_size self))
                                  (Z.to_nat (chunk_size self - chunk_overlap self))
                                  (split_ws doc))))
      as (per_doc & Hper & Hrun).
    eexists (_ :: per_doc). split.
    + constructor; [apply chunk_text_windows; assumption | exact Hper].
    + cbn [chunk_all]. rewrite chunk_text_windows by assumption.
      cbn [bind concat]. now rewrite Hrun, app_assoc.
Qed.

(** The batching loop when every batch succeeds: one array per batch, all
    of [dim] columns, with one row per chunk from the batch of rank [k]
    on. *)
Lemma embed_loop_spec (self : RAGStudyAssistant) (all_chunks : list str)
      (dim : Z) :
  every_batch_succeeds self dim all_chunks ->
  forall (fuel : nat) (k : Z) (embeddings_list : list ndarray),
    0 <= k -> len all_chunks - batch_size * k <= Z.of_nat fuel ->
    exists ms,
      fold_left (embed_step self all_chunks)
                (range_up fuel (batch_size * k) (len all_chunks) batch_size)
                embeddings_list
      = embeddings_list ++ ms
      /\ Forall (fun m => shape1 m = dim) ms
      /\ len (flat_map rows ms) = Z.max 0 (len all_chunks - batch_size * k)
      /\ (batch_size * k < len all_chunks -> ms <> []).
Proof.
  intros Hok. induction fuel as [| fuel IH]; intros k acc Hk Hfuel.
  - exists []. cbn [range_up fold_left]. rewrite app_nil_r.
    repeat split; [constructor | unfold len in *; cbn [flat_map length Z.of_nat]; lia | lia].
  - cbn [range_up].
    destruct (Z.ltb_spec (batch_size * k) (len all_chunks)) as [Hin | Hout].
    + destruct (Hok k Hk Hin) as (m & Hm & Hdim & Hrows).
      cbn [fold_left]. unfold embed_step at 2. rewrite Hm.
      replace (batch_size * k + batch_size) with (batch_size * (k + 1))
        by (unfold batch_size; lia).
      destruct (IH (k + 1) (acc ++ [m])) as (ms & Hrun & Hdims & Hlen & _);
        [unfold batch_size in *; lia .. |].
      exists (m :: ms). rewrite Hrun, <- app_assoc.
      repeat split; [constructor; assumption | | discriminate].
      cbn [flat_map]. unfold len in *. rewrite length_app, Nat2Z.inj_add.
      rewrite Hlen, Hrows, slice_window by (unfold batch_size; lia).
      rewrite length_firstn, length_skipn. unfold batch_size in *. lia.
    + exists []. cbn [fold_left]. rewrite app_nil_r.
      repeat split; [constructor | unfold len in *; cbn [flat_map length Z.of_nat]; lia | lia].
Qed.

Lemma vstack_same_width (dim : Z) (ms : list ndarray) :
  ms <> [] -> Forall (fun m => shape1 m = dim) ms ->
  vstack ms = Ok {| shape1 := dim; rows := flat_map rows ms |}.
Proof.
  intros Hne Hdims. destruct ms as [| a ms]; [congruence |].
  unfold vstack.
  assert (Ha : shape1 a = dim) by now apply Forall_cons_iff in Hdims.
  replace (forallb (fun b => shape1 b =? shape1 a) (a :: ms)) with true;
    [now rewrite Ha |].
  symmetry. apply forallb_forall. intros b Hb.
  rewrite Forall_forall in Hdims. rewrite (Hdims b Hb), Ha. apply Z.eqb_refl.
Qed.

Lemma I1_init (emb : option Embedder) (qa : option Pipeline) :
  I1 (init emb qa).
Proof. reflexivity. Qed.

(** C2 (as amended).  From a service that satisfies I1 and whose index,
    if it exists, has the width of the embeddings, a call of
    [add_documents] in which every embedding batch succeeds returns
    normally, appends to the
    Document Store the chunks of the documents, document after document
    and chunk after chunk, and leaves the store as long as the Vector
    Index has rows (I1); the configuration, the embedder and the dimension
    of the index are kept, so the next call starts from I1 again. *)
Theorem add_documents_keeps_I1 (self : RAGStudyAssistant) (docs : list str)
        (dim : Z) :
  0 < chunk_size self -> chunk_overlap self < chunk_size self ->
  I1 self -> index_dim_is self dim ->
  (forall all_chunks, chunk_all self [] docs = Ok all_chunks ->
                      every_batch_succeeds self dim all_chunks) ->
  let self' := snd (add_documents self docs) in
  fst (add_documents self docs) = Ok tt
  /\ (exists per_doc,
        chunks_of_documents self docs per_doc
        /\ documents self' = documents self ++ concat per_doc)
  /\ len (documents self') = index_rows self'
  /\ index_dim_is self' dim
  /\ chunk_size self' = chunk_size self
  /\ chunk_overlap self' = chunk_overlap self
  /\ embedder self' = embedder self.
Proof.
  intros Hsize Hstep HI1 Hdim Hbatches self'. subst self'.
  unfold add_documents. destruct docs as [| doc docs].
  { cbn [nonempty negb fst snd]. repeat split; try assumption.
    exists []. split; [constructor | simpl; now rewrite app_nil_r]. }
  cbn [nonempty negb].
  destruct (chunk_all_spec self (doc :: docs) Hsize Hstep [])
    as (per_doc & Hper & Hchunks).
  cbn [app] in Hchunks. specialize (Hbatches _ Hchunks). rewrite Hchunks.
  set (all_chunks := concat per_doc) in *.
  set (self1 := set_documents self (documents self ++ all_chunks)).
  assert (Hrange : range 0 (len all_chunks) batch_size
                   = Ok (range_up (Z.to_nat (len all_chunks)) 0
                                  (len all_chunks) batch_size))
    by (unfold range; change (batch_size =? 0) with false;
        change (0 <? batch_size) with true; cbv iota;
        now rewrite Z.sub_0_r).
  rewrite Hrange.
  destruct (embed_loop_spec self1 all_chunks dim Hbatches
                            (Z.to_nat (len all_chunks)) 0 [])
    as (ms & Hrun & Hdims & Hrows & Hne);
    [lia | unfold len; lia |].
  change (batch_size * 0) with 0 in *.
  rewrite Hrun. cbn [app]. rewrite Z.sub_0_r in Hrows.
  rewrite Z.max_r in Hrows by apply len_nonneg.
  destruct ms as [| m ms].
  - (* no chunk at all: nothing to embed *)
    assert (Hnil : all_chunks = []).
    { destruct all_chunks; [reflexivity |].
      exfalso. apply Hne; [unfold len; simpl; lia | reflexivity]. }
    cbn [nonempty negb fst snd]. repeat split; try assumption.
    + exists per_doc. split; [exact Hper | reflexivity].
    + unfold I1 in HI1. unfold self1. cbn. rewrite Hnil, app_nil_r.
      exact HI1.
  - cbn [nonempty negb].
    rewrite (vstack_same_width dim) by (assumption || discriminate).
    change (vector_index self1) with (vector_index self).
    unfold I1, index_rows, index_dim_is in *. cbn [shape1].
    destruct (vector_index self) as [ix |] eqn:Hix.
    + unfold index_add. cbn [shape1 rows]. rewrite Hdim, Z.eqb_refl.
      cbn [fst snd set_vector_index vector_index documents set_documents
           chunk_size chunk_overlap embedder d xb ntotal].
      repeat split; try reflexivity.
      * exists per_doc. split; [exact Hper | reflexivity].
      * change (documents self1) with (documents self ++ all_chunks).
        unfold ntotal, len in *. cbn [xb app] in *.
        rewrite ?length_app, ?Nat2Z.inj_add. lia.
    + unfold index_add, new_index. cbn [shape1 rows d xb]. rewrite Z.eqb_refl.
      cbn [fst snd set_vector_index vector_index documents set_documents
           chunk_size chunk_overlap embedder d xb ntotal].
      repeat split; try reflexivity.
      * exists per_doc. split; [exact Hper | reflexivity].
      * change (documents self1) with (documents self ++ all_chunks).
        unfold ntotal, len in *. cbn [xb app] in *.
        rewrite ?length_app, ?Nat2Z.inj_add. lia.
Qed.

Lemma add_documents_keeps_I1_witness :
  let self := init (Some sample_embedder) (Some echo_pipeline) in
  fst (add_documents self sample_documents) = Ok tt
  /\ len (documents sample_service) = index_rows sample_service.
Proof.
  assert (Hbatches :
            forall all_chunks,
              chunk_all (init (Some sample_embedder) (Some echo_pipeline)) []
                        sample_documents = Ok all_chunks ->
              every_batch_succeeds
                (init (Some sample_embedder) (Some echo_pipeline)) 2 all_chunks).
  { intros all_chunks _ k _ _. eexists. split; [reflexivity |].
    split; [reflexivity |]. unfold len. cbn [rows]. now rewrite length_map. }
  destruct (add_documents_keeps_I1
              (init (Some sample_embedder) (Some echo_pipeline))
              sample_documents 2 eq_refl eq_refl eq_refl I Hbatches)
    as (Hreturn & _ & HI1 & _).
  split; [exact Hreturn | exact HI1].
Defined.

(** C2 (as stated) fails: I1 has to hold before the call.  With an
    embedder that raised on the batch of a first call, the store holds
    three chunks and there is no index; a second call, on one document
    whose only batch succeeds, returns normally and leaves four chunks in
    the store for one row in the index. *)
Lemma batches_succeed_after_a_failed_call :
  let failed :=
    snd (add_documents (init (Some flaky_embedder) None) sample_documents) in
  let self' := snd (add_documents failed [lit "eta theta"]) in
  chunk_all failed [] [lit "eta theta"] = Ok [lit "eta theta"]
  /\ every_batch_succeeds failed 2 [lit "eta theta"]
  /\ fst (add_documents failed [lit "eta theta"]) = Ok tt
  /\ len (documents self') = 4
  /\ index_rows self' = 1
  /\ len (documents self') <> index_rows self'.
Proof.
  cbv zeta. split; [vm_compute; reflexivity |]. split.
  - intros k Hk Hlt.
    assert (k = 0) as ->
      by (unfold batch_size, len in Hlt; cbn [length] in Hlt; lia).
    eexists. split; [vm_compute; reflexivity |]. split; reflexivity.
  - split; [vm_compute; reflexivity |].
    split; [vm_compute; reflexivity |].
    split; [vm_compute; reflexivity |].
    vm_compute. discriminate.
Qed.

(** When the batches fail, the chunks are stored and no row is added: I1
    does not survive such a call. *)
Example failed_batches_break_I1 :
  let self' :=
    snd (add_documents (init (Some failing_embedder) None) sample_documents) in
  fst (add_documents (init (Some failing_embedder) None) sample_documents)
  = Ok tt
  /\ len (documents self') = 3
  /\ index_rows self' = 0.
Proof. repeat split. Qed.

(** *** The retriever *)

(** A search always answers with as many labels as it was asked for. *)
Lemma search_row_length (ix : IndexFlatL2) (q : vector) (k : Z) :
  0 <= k -> len (search_row ix q k) = k.
Proof.
  intros Hk. unfold search_row, len.
  rewrite length_app, repeat_length, length_firstn. lia.
Qed.

(** C3 (the code where the bound fails).  On the corpus of three
    chunks, [query] asks the index for 30 neighbours; the labels it reads
    are the three rows followed by 27 times -1, which [self.documents]
    takes for its last entry: the context is joined from 30 entries, the
    last chunk 27 times more than it was retrieved. *)
Theorem query_asks_for_30_of_3 :
  len (documents sample_service) = 3
  /\ index_rows sample_service = 3
  /\ top_k = 30
  /\ (exists ix,
        vector_index sample_service = Some ix
        /\ search_labels sample_service ix (lit "gamma")
           = Ok ([1; 0; 2] ++ repeat (-1) 27))
  /\ index (documents sample_service) (-1) = Ok (lit "delta epsilon zeta")
  /\ query_context sample_service (lit "gamma") None
     = Ok (inr (join (lit nl)
                     ([lit "gamma"; lit "alpha beta"; lit "delta epsilon zeta"]
                      ++ repeat (lit "delta epsilon zeta") 27))).
Proof.
  do 3 (split; [vm_compute; reflexivity |]).
  split; [eexists; split; vm_compute; reflexivity |].
  split; vm_compute; reflexivity.
Qed.

Lemma insert_by_distance_length (p : Z * Z) (l : list (Z * Z)) :
  length (insert_by_distance p l) = S (length l).
Proof.
  induction l as [| p' l IH]; [reflexivity |].
  simpl. destruct (fst p' <=? fst p); simpl; now rewrite ?IH.
Qed.

Lemma sort_by_distance_length (l : list (Z * Z)) :
  length (sort_by_distance l) = length l.
Proof.
  unfold sort_by_distance.
  assert (H : forall acc,
             length (fold_left (fun acc p => insert_by_distance p acc) l acc)
             = (length l + length acc)%nat).
  { induction l as [| p l IH]; intros acc; [reflexivity |].
    cbn [fold_left]. rewrite IH, insert_by_distance_length. simpl. lia. }
  rewrite H. simpl. lia.
Qed.

Lemma distances_length (q : vector) (label : Z) (xs : list vector) :
  length (distances q label xs) = length xs.
Proof.
  revert label. induction xs as [| x xs IH]; intros label; [reflexivity |].
  simpl. now rewrite IH.
Qed.

(** Asked for more neighbours than it has rows, the index answers with
    labels that end in -1. *)
Lemma search_row_padded (ix : IndexFlatL2) (q : vector) (k : Z) :
  ntotal ix < k -> In (-1) (search_row ix q k).
Proof.
  intros Hk. unfold search_row. apply in_or_app. right.
  set (found := firstn _ _).
  assert (Hfound : (length found <= length (xb ix))%nat).
  { unfold found. rewrite length_firstn, length_map, sort_by_distance_length,
      distances_length. lia. }
  unfold ntotal, len in Hk.
  destruct (Z.to_nat k - length found)%nat eqn:E; [lia | now left].
Qed.

(** Whatever the question, a service whose index has fewer than 30 rows
    reads 30 labels, one of them -1. *)
Lemma search_labels_padded (self : RAGStudyAssistant) (ix : IndexFlatL2)
      (question : str) (labels : list Z) :
  search_labels self ix question = Ok labels ->
  ntotal ix < top_k ->
  len labels = top_k /\ In (-1) labels.
Proof.
  unfold search_labels, index_search. intros Hrun Hfew.
  destruct (encode self [question]) as [m | e]; [| discriminate].
  cbn [bind] in Hrun.
  destruct (shape1 m =? d ix); [| discriminate]. cbn [bind] in Hrun.
  destruct (rows m) as [| q qs]; [discriminate |].
  cbn [map] in Hrun. rewrite index_head in Hrun. injection Hrun as <-.
  split; [now apply search_row_length | now apply search_row_padded].
Qed.

(** *** The prompt composer *)

Lemma str_eqb_eq (a b : str) : str_eqb a b = true <-> a = b.
Proof.
  revert b. induction a as [| x a IH]; intros [| y b]; simpl;
    try (split; congruence).
  rewrite andb_true_iff, Ascii.eqb_eq, IH. split.
  - now intros [-> ->].
  - intros E. now injection E.
Qed.

Lemma dict_get_unknown {V} (table : list (str * V)) (key : str) (default : V) :
  ~ In key (map fst table) -> dict_get table key default = default.
Proof.
  induction table as [| [k v] table IH]; intros Hkey; [reflexivity |].
  simpl in *. destruct (str_eqb k key) eqn:E.
  - apply str_eqb_eq in E. tauto.
  - apply IH. tauto.
Qed.

(** C4 (as amended).  The six literal formats resolve to their documented
    [max_length]; a format outside the six resolves to the instruction
    "Answer in full sentences and in detail." with [max_length] 2048; and
    no format makes [query] raise: once there is a context, [query] returns
    what the generation invoker returns for the composed prompt. *)
Theorem format_policy (answer_format : str) :
  (max_len_of (lit "one_word") = 20
   /\ max_len_of (lit "full") = 2048
   /\ max_len_of (lit "long_answer") = 2048
   /\ max_len_of (lit "short_summary") = 1024
   /\ max_len_of (lit "bullet_points") = 1024
   /\ max_len_of (lit "short_answer") = 1024)
  /\ (~ In answer_format known_formats ->
      instruction_of answer_format = default_instruction
      /\ max_len_of answer_format = 2048)
  /\ (forall self question context_texts context,
        query_context self question context_texts = Ok (inr context) ->
        query self question context_texts answer_format
        = Ok (invoke_generation
                self (query_prompt answer_format context question)
                (max_len_of answer_format))).
Proof.
  split; [repeat split |]. split.
  - intros Hunknown. split; apply dict_get_unknown; exact Hunknown.
  - intros self question context_texts context Hcontext.
    unfold query. now rewrite Hcontext.
Qed.

Lemma format_policy_witness :
  show (instruction_of (lit "essay"))
  = "Answer in full sentences and in detail."%string
  /\ max_len_of (lit "essay") = 2048
  /\ query (init None (Some echo_pipeline)) (lit "What is algebra?")
           (Some [lit "Algebra studies symbols."]) (lit "essay")
     = Ok (lit "Answer in full sentences and in detail. Based on the provided context, answer the following educational question accurately. Context: Algebra studies symbols. Question: What is algebra?").
Proof.
  destruct (format_policy (lit "essay")) as (_ & Hunknown & Hquery).
  assert (Hessay : ~ In (lit "essay") known_formats).
  { intros Hin. vm_compute in Hin.
    repeat (destruct Hin as [Hin | Hin]; [discriminate Hin |]).
    exact Hin. }
  destruct (Hunknown Hessay) as [Hinstruction Hmax].
  split; [now rewrite Hinstruction |]. split; [exact Hmax |].
  rewrite (Hquery (init None (Some echo_pipeline)) (lit "What is algebra?")
                  (Some [lit "Algebra studies symbols."])
                  (lit "Algebra studies symbols."))
    by (vm_compute; reflexivity).
  vm_compute. reflexivity.
Defined.

(** C4 (as stated) fails: for the unknown format [essay] the instruction is
    not the instruction of [full]. *)
Lemma unknown_format_is_not_full :
  ~ In (lit "essay") known_formats
  /\ instruction_of (lit "essay") <> instruction_of (lit "full")
  /\ show (instruction_of (lit "essay"))
     = "Answer in full sentences and in detail."%string
  /\ show (instruction_of (lit "full"))
     = "You are a helpful AI study assistant. Answer the question in a friendly, conversational tone, providing detailed information from the context as if explaining to a curious student."%string.
Proof.
  split; [| split; [| split]]; try reflexivity.
  - intros Hin. vm_compute in Hin.
    repeat (destruct Hin as [Hin | Hin]; [discriminate Hin |]).
    exact Hin.
  - vm_compute. discriminate.
Qed.

(** *** The generation invoker *)



(** Without a pipeline, and with a response that has no entry, the error
    is a returned text as well. *)
Example generation_errors_without_pipeline :
  show (invoke_generation (init None None) (lit "prompt") 20)
  = "Error during generation: 'NoneType' object has no attribute 'task'"%string
  /\ show (invoke_generation
             (init None (Some {| task := lit "text-generation";
                                 call := fun _ _ => Ok [] |}))
             (lit "prompt") 20)
     = "Error during generation: list index out of range"%string.
Proof. split; vm_compute; reflexivity. Qed.

Lemma startswith_app (p rest : str) : startswith p (p ++ rest) = true.
Proof.
  induction p as [| c p IH]; [reflexivity |].
  simpl. now rewrite Ascii.eqb_refl, IH.
Qed.

(** More steps than characters change nothing. *)
Lemma replace_loop_fuel (old new : str) :
  old <> [] ->
  forall (fuel fuel' : nat) (s : str),
    (length s <= fuel)%nat -> (length s <= fuel')%nat ->
    replace_loop fuel old new s = replace_loop fuel' old new s.
Proof.
  intros Hold. induction fuel as [| fuel IH]; intros fuel' s Hs Hs'.
  - destruct s; [| simpl in Hs; lia]. now destruct fuel'.
  - destruct s as [| c s]; [now destruct fuel' |].
    destruct fuel' as [| fuel']; [simpl in Hs'; lia |].
    cbn [replace_loop]. destruct (startswith old (c :: s)).
    + f_equal. apply IH; rewrite length_skipn;
        destruct old; try congruence; simpl in *; lia.
    + f_equal. apply IH; simpl in *; lia.
Qed.

Lemma replace_loop_prefix (old new rest : str) (fuel : nat) :
  old <> [] -> (length (old ++ rest) <= fuel)%nat ->
  replace_loop fuel old new (old ++ rest)
  = new ++ replace_loop (length rest) old new rest.
Proof.
  intros Hold Hfuel.
  assert (Hlen : (1 <= length old)%nat) by (destruct old; simpl; [congruence | lia]).
  rewrite length_app in Hfuel.
  destruct fuel as [| fuel]; [lia |].
  destruct (old ++ rest) as [| c s] eqn:E.
  - apply (f_equal (@length ascii)) in E. rewrite length_app in E.
    simpl in E. lia.
  - cbn [replace_loop]. rewrite <- E, startswith_app. f_equal.
    rewrite skipn_app, skipn_all, Nat.sub_diag. cbn [app skipn].
    apply replace_loop_fuel; [assumption | lia | lia].
Qed.

(** The echoed prompt at the start is removed, and the rest is treated
    the same way. *)
Lemma replace_prefix (old rest : str) :
  old <> [] -> replace old [] (old ++ rest) = replace old [] rest.
Proof.
  intros Hold. unfold replace. destruct old as [| a old]; [congruence |].
  now rewrite replace_loop_prefix.
Qed.

(** A text in which [old] does not occur is left as it is. *)
Lemma replace_loop_absent (old new s : str) :
  forall (i : Z) (fuel : nat),
    0 <= i -> find_from i old s = -1 -> (length s <= fuel)%nat ->
    replace_loop fuel old new s = s.
Proof.
  induction s as [| c s IH]; intros i fuel Hi Hfind Hfuel.
  - now destruct fuel.
  - destruct fuel as [| fuel]; [simpl in Hfuel; lia |].
    cbn [find_from] in Hfind. cbn [replace_loop].
    destruct (startswith old (c :: s)); [lia |].
    f_equal. apply (IH (i + 1)); simpl in *; lia.
Qed.

Lemma replace_absent (old new s : str) :
  find old s = -1 -> replace old new s = s.
Proof.
  intros Hfind. unfold replace. destruct old as [| a old].
  - unfold find in Hfind. destruct s; simpl in Hfind; discriminate.
  - apply (replace_loop_absent _ _ _ 0); [lia | exact Hfind | lia].
Qed.

(** C7 (as amended).  With a causal pipeline whose output starts with the
    prompt, the invoker returns what follows the prompt with every further
    occurrence of the prompt removed as well; this is exactly what follows
    the prompt when the prompt does not occur in it again. *)
Theorem causal_output_is_stripped
        (self : RAGStudyAssistant) (qa : Pipeline)
        (prompt rest : str) (max_len : Z) (others : list (option str)) :
  qa_pipeline self = Some qa ->
  str_eqb (task qa) (lit "text2text-generation") = false ->
  prompt <> [] ->
  call qa prompt (max_new_tokens max_len) = Ok (Some (prompt ++ rest) :: others) ->
  invoke_generation self prompt max_len = replace prompt [] rest
  /\ (find prompt rest = -1 -> invoke_generation self prompt max_len = rest).
Proof.
  intros Hqa Htask Hprompt Hcall.
  assert (Hrun : invoke_generation self prompt max_len
                 = replace prompt [] rest).
  { unfold invoke_generation, generate_text. rewrite Hqa, Htask, Hcall.
    cbn [bind]. unfold generated_text_of. rewrite index_head. cbn [bind].
    now apply replace_prefix. }
  split; [exact Hrun |].
  intros Habsent. rewrite Hrun. now apply replace_absent.
Qed.

Lemma causal_output_is_stripped_witness :
  let qa := {| task := lit "text-generation";
               call := fun prompt _ => Ok [Some (prompt ++ lit " Paris.")] |} in
  invoke_generation (init None (Some qa)) (lit "Capital of France?") 20
  = lit " Paris.".
Proof.
  intros qa.
  destruct (causal_output_is_stripped
              (init None (Some qa)) qa (lit "Capital of France?")
              (lit " Paris.") 20 [] eq_refl eq_refl)
    as [_ Hexact]; [discriminate | reflexivity |].
  apply Hexact. vm_compute. reflexivity.
Defined.

(** C7 (as stated) fails: when the model repeats the prompt after its
    answer, what follows the echoed prompt is [" yes Why?"], and the
    invoker returns [" yes "]. *)
Lemma stripping_removes_more_than_the_prefix :
  let self := init None (Some repeating_pipeline) in
  let prompt := lit "Why?" in
  call repeating_pipeline prompt (max_new_tokens 20)
  = Ok [Some (prompt ++ lit " yes Why?")]
  /\ invoke_generation self prompt 20 = lit " yes "
  /\ invoke_generation self prompt 20 <> lit " yes Why?".
Proof.
  split; [reflexivity |]. split; [vm_compute; reflexivity |].
  vm_compute. discriminate.
Qed.

(** *** The flashcard parser *)

Lemma parse_flashcards_length (generated_text : str) :
  len (parse_flashcards generated_text) <= 5.
Proof.
  unfold parse_flashcards. rewrite slice_to by lia.
  unfold len. rewrite length_firstn. lia.
Qed.

(** C5.  Whatever the generated text, the parser returns a list of at most
    five flashcards; and whatever the generation does, raise or answer,
    [generate_flashcards] returns such a list, the empty one when the
    pipeline raises. *)
Theorem flashcards_at_most_five
        (self : RAGStudyAssistant) (content : option str) :
  0 < chunk_size self -> chunk_overlap self < chunk_size self ->
  (forall generated_text, len (parse_flashcards generated_text) <= 5)
  /\ (exists cards,
        generate_flashcards self content = Ok cards /\ len cards <= 5)
  /\ (forall qa e,
        qa_pipeline self = Some qa ->
        (forall prompt arg, call qa prompt arg = Raise e) ->
        generate_flashcards self content = Ok []).
Proof.
  intros Hsize Hstep. split; [exact parse_flashcards_length |].
  assert (Hcontext : exists c, flashcard_context self content = Ok c).
  { unfold flashcard_context. destruct content as [text |].
    - rewrite chunk_text_windows by assumption. cbn [bind]. now eexists.
    - destruct (vector_index self); [| now eexists].
      destruct (len (documents self) =? 0); now eexists. }
  destruct Hcontext as [c Hcontext]. split.
  - unfold generate_flashcards.
    destruct (qa_pipeline self) as [qa |]; [| exists []; now split].
    rewrite Hcontext. cbn [bind].
    destruct c as [context |]; [| exists []; now split].
    destruct (generate_text self _ 2048) as [generated_text | e].
    + eexists. split; [reflexivity | apply parse_flashcards_length].
    + exists []. now split.
  - intros qa e Hqa Hraise. unfold generate_flashcards.
    rewrite Hqa, Hcontext. cbn [bind].
    destruct c as [context |]; [| reflexivity].
    unfold generate_text. rewrite Hqa.
    destruct (str_eqb (task qa) (lit "text2text-generation"));
      now rewrite Hraise.
Qed.

Lemma flashcards_at_most_five_witness :
  (exists cards,
      generate_flashcards (init None (Some echo_pipeline))
                          (Some (lit "Water is made of hydrogen and oxygen."))
      = Ok cards
      /\ len cards <= 5)
  /\ generate_flashcards (init None (Some failing_pipeline))
                         (Some (lit "Water is made of hydrogen and oxygen."))
     = Ok [].
Proof.
  split.
  - destruct (flashcards_at_most_five
                (init None (Some echo_pipeline))
                (Some (lit "Water is made of hydrogen and oxygen."))
                eq_refl eq_refl)
      as (_ & Hcards & _).
    exact Hcards.
  - destruct (flashcards_at_most_five
                (init None (Some failing_pipeline))
                (Some (lit "Water is made of hydrogen and oxygen."))
                eq_refl eq_refl)
      as (_ & _ & Hraise).
    apply (Hraise failing_pipeline
                  (PyExc "RuntimeError" (lit "out of memory")) eq_refl).
    intros prompt arg. reflexivity.
Defined.

(** Six well-formed flashcards in the text: the first five are returned. *)
Example six_flashcards_give_five :
  parse_flashcards six_flashcards = parse_flashcards flashcard_examples
  /\ len (parse_flashcards six_flashcards) = 5.
Proof. split; vm_compute; reflexivity. Qed.

(** Text without any marker gives no flashcard. *)
Example no_marker_no_flashcard :
  parse_flashcards (lit "The sky is blue and the grass is green.") = [].
Proof. vm_compute. reflexivity. Qed.

(** C8.  The five examples of the generation prompt, read as if they were
    the generated text, parse to exactly five flashcards with the
    questions and answers of the examples, each with [review_count] 0 and
    no [last_reviewed]. *)
Theorem examples_parse_to_five_flashcards :
  parse_flashcards flashcard_examples
  = [ {| question := lit "What is the capital of France?";
         answer := lit "Paris";
         review_count := 0; last_reviewed := None |};
      {| question := lit "What is 2+2?";
         answer := lit "4";
         review_count := 0; last_reviewed := None |};
      {| question := lit "What is the color of the sky?";
         answer := lit "Blue";
         review_count := 0; last_reviewed := None |};
      {| question := lit "What is the largest planet?";
         answer := lit "Jupiter";
         review_count := 0; last_reviewed := None |};
      {| question := lit "What is water made of?";
         answer := lit "Hydrogen and oxygen";
         review_count := 0; last_reviewed := None |} ]
  /\ len (parse_flashcards flashcard_examples) = 5
  /\ map (fun card => (show (question card), show (answer card)))
         (parse_flashcards flashcard_examples)
     = [ ("What is the capital of France?", "Paris");
         ("What is 2+2?", "4");
         ("What is the color of the sky?", "Blue");
         ("What is the largest planet?", "Jupiter");
         ("What is water made of?", "Hydrogen and oxygen") ]%string
  /\ Forall (fun card => review_count card = 0 /\ last_reviewed card = None)
            (parse_flashcards flashcard_examples).
Proof.
  assert (E : parse_flashcards flashcard_examples
              = [ {| question := lit "What is the capital of France?";
                     answer := lit "Paris";
                     review_count := 0; last_reviewed := None |};
                  {| question := lit "What is 2+2?";
                     answer := lit "4";
                     review_count := 0; last_reviewed := None |};
                  {| question := lit "What is the color of the sky?";
                     answer := lit "Blue";
                     review_count := 0; last_reviewed := None |};
                  {| question := lit "What is the largest planet?";
                     answer := lit "Jupiter";
                     review_count := 0; last_reviewed := None |};
                  {| question := lit "What is water made of?";
                     answer := lit "Hydrogen and oxygen";
                     review_count := 0; last_reviewed := None |} ])
    by (vm_compute; reflexivity).
  rewrite E. split; [reflexivity |]. split; [reflexivity |].
  split; [vm_compute; reflexivity |].
  repeat constructor.
Qed.

(** *** Flashcard generation on a service that cannot answer *)

(** C10.  [generate_flashcards] returns the empty list when there is no
    generation pipeline, and when it is called without content on a
    service that has no vector index or no stored chunk; in that second
    case [query], called without context texts, returns the message
    "Please upload some study materials first!". *)
Theorem nothing_to_generate_from
        (self : RAGStudyAssistant) (content : option str)
        (question answer_format : str) :
  (qa_pipeline self = None -> generate_flashcards self content = Ok [])
  /\ (vector_index self = None \/ documents self = [] ->
      generate_flashcards self None = Ok []
      /\ query self question None answer_format = Ok msg_no_materials
      /\ query self question (Some []) answer_format = Ok msg_no_materials).
Proof.
  split.
  - intros Hqa. unfold generate_flashcards. now rewrite Hqa.
  - intros Hempty.
    assert (Hcontext : flashcard_context self None = Ok None).
    { unfold flashcard_context. destruct Hempty as [-> | ->]; [reflexivity |].
      now destruct (vector_index self). }
    assert (Hquery : forall texts,
               texts = None \/ texts = Some [] ->
               query_context self question texts = Ok (inl msg_no_materials)).
    { intros texts [-> | ->]; unfold query_context;
        (destruct Hempty as [-> | ->];
         [reflexivity | now destruct (vector_index self)]). }
    split; [| split].
    + unfold generate_flashcards. rewrite Hcontext.
      now destruct (qa_pipeline self).
    + unfold query. rewrite Hquery; [reflexivity | now left].
    + unfold query. rewrite Hquery; [reflexivity | now right].
Qed.

Lemma nothing_to_generate_from_witness :
  generate_flashcards (init (Some sample_embedder) None)
                      (Some (lit "Water is wet.")) = Ok []
  /\ generate_flashcards (init (Some sample_embedder) (Some echo_pipeline)) None
     = Ok []
  /\ show (match query (init (Some sample_embedder) (Some echo_pipeline))
                       (lit "What is water?") None (lit "full") with
           | Ok message => message
           | Raise _ => []
           end)
     = "Please upload some study materials first!"%string.
Proof.
  destruct (nothing_to_generate_from
              (init (Some sample_embedder) None)
              (Some (lit "Water is wet.")) (lit "What is water?") (lit "full"))
    as [Hno_pipeline _].
  destruct (nothing_to_generate_from
              (init (Some sample_embedder) (Some echo_pipeline))
              None (lit "What is water?") (lit "full"))
    as [_ Hno_index].
  destruct (Hno_index (or_introl eq_refl)) as (Hcards & Hmessage & _).
  split; [exact (Hno_pipeline eq_refl) |]. split; [exact Hcards |].
  now rewrite Hmessage.
Defined.

(* ================================================================== *)
(** ** Further properties of the chunker *)
(* ================================================================== *)

Lemma windows_nonempty {A} (fuel size step : nat) (l : list A) :
  (1 <= size)%nat -> Forall (fun w => w <> []) (windows fuel size step l).
Proof.
  intros Hsize. revert l. induction fuel as [| fuel IH]; intros l.
  - constructor.
  - destruct l as [| x l]; [constructor |].
    rewrite windows_cons by discriminate. constructor; [| apply IH].
    destruct size; [lia | discriminate].
Qed.

(** A text of at most [chunk_size - chunk_overlap] words is one chunk. *)
Lemma chunk_text_single (self : RAGStudyAssistant) (text : str) :
  0 < chunk_size self -> 0 <= chunk_overlap self < chunk_size self ->
  0 < len (split_ws text) <= chunk_size self - chunk_overlap self ->
  _chunk_text self text = Ok [join (lit " ") (split_ws text)].
Proof.
  intros Hsize Hoverlap Hwords. rewrite chunk_text_windows by lia.
  unfold len in Hwords.
  destruct (split_ws text) as [| w ws] eqn:E; [simpl in Hwords; lia |].
  rewrite <- E in *. clear E.
  destruct (length (split_ws text)) as [| n] eqn:Hn; [lia |].
  rewrite windows_cons by (intros E; rewrite E in Hn; discriminate).
  rewrite firstn_all2, skipn_all2 by lia.
  now destruct n.
Qed.

(** X1.  With [chunk_size = 2000] and [chunk_overlap = 200], a text of 1
    to 1800 words gives exactly one chunk: its words joined by single
    spaces. *)
Theorem short_text_is_one_chunk (self : RAGStudyAssistant) (text : str) :
  chunk_size self = 2000 -> chunk_overlap self = 200 ->
  0 < len (split_ws text) <= 1800 ->
  _chunk_text self text = Ok [join (lit " ") (split_ws text)].
Proof.
  intros Hsize Hoverlap Hwords. apply chunk_text_single; lia.
Qed.

Lemma short_text_is_one_chunk_witness :
  _chunk_text (init None None) (lit ("  revise   the" ++ nl ++ "notes "))
  = Ok [lit "revise the notes"].
Proof.
  apply (short_text_is_one_chunk
           (init None None) (lit ("  revise   the" ++ nl ++ "notes "))
           eq_refl eq_refl).
  split; [reflexivity | vm_compute; discriminate].
Defined.

(** X2.  With [chunk_size = 2000] and [chunk_overlap = 200], two
    consecutive chunks share words: the words of a chunk past its 1800th,
    between 1 and 200 of them, are the first words of the next chunk; and
    when the chunk already reaches the end of the text, they are all the
    words of the next chunk, which brings no new word. *)
Theorem consecutive_chunks_overlap (self : RAGStudyAssistant) (text : str) :
  chunk_size self = 2000 -> chunk_overlap self = 200 ->
  exists chunks,
    _chunk_text self text = Ok chunks
    /\ forall j, 0 <= j -> j + 1 < len chunks ->
       exists c c',
         index chunks j = Ok c
         /\ index chunks (j + 1) = Ok c'
         /\ let shared := slice (split_ws c) (Some 1800) None in
            1 <= len shared <= 200
            /\ slice (split_ws c') None (Some (len shared)) = shared
            /\ (len (split_ws text) <= 1800 * j + 2000 ->
                split_ws c' = shared).
Proof.
  intros Hsize Hoverlap.
  pose proof (chunk_text_spec self text) as H. cbv zeta in H.
  rewrite Hsize, Hoverlap in H. change (2000 - 200) with 1800 in H.
  destruct H as (chunks & Hrun & Hcount & Hchunks); try lia.
  exists chunks. split; [exact Hrun |]. intros j Hj Hnext.
  destruct (Hchunks j) as (c & Hc & Hwords & _); [lia |].
  destruct (Hchunks (j + 1)) as (c' & Hc' & Hwords' & _); [lia |].
  exists c, c'. split; [exact Hc |]. split; [exact Hc' |].
  rewrite Hcount in Hnext.
  assert (Hlt : 1800 * (j + 1) < len (split_ws text))
    by (apply (ceil_div_above _ 1800); lia).
  set (words := split_ws text) in *.
  set (rest := skipn (Z.to_nat (1800 * (j + 1))) words).
  assert (Hshared : slice (split_ws c) (Some 1800) None
                    = firstn (Z.to_nat 200) rest).
  { rewrite Hwords, slice_window, slice_from by lia.
    rewrite skipn_firstn_comm, skipn_skipn.
    replace (Z.to_nat 2000 - Z.to_nat 1800)%nat with (Z.to_nat 200) by lia.
    replace (Z.to_nat 1800 + Z.to_nat (1800 * j))%nat
      with (Z.to_nat (1800 * (j + 1))) by lia.
    reflexivity. }
  assert (Hnext_words : split_ws c' = firstn (Z.to_nat 2000) rest)
    by (rewrite Hwords', slice_window by lia; reflexivity).
  cbv zeta. rewrite Hshared, Hnext_words.
  assert (Hrest : Z.of_nat (length rest) = len words - 1800 * (j + 1))
    by (unfold rest, len; rewrite length_skipn; unfold len in Hlt; lia).
  split; [unfold len; rewrite length_firstn; lia |]. split.
  - rewrite slice_to by apply len_nonneg. unfold len.
    rewrite Nat2Z.id, length_firstn, firstn_firstn.
    replace (Nat.min (Nat.min (Z.to_nat 200) (length rest)) (Z.to_nat 2000))
      with (Nat.min (Z.to_nat 200) (length rest)) by lia.
    apply firstn_min_length.
  - intros Hend. rewrite !firstn_all2 by lia. reflexivity.
Qed.

Lemma consecutive_chunks_overlap_witness :
  exists chunks,
    _chunk_text (init None None) (text_of_words 1900) = Ok chunks
    /\ exists c c',
         index chunks 0 = Ok c /\ index chunks 1 = Ok c'
         /\ split_ws c' = slice (split_ws c) (Some 1800) None.
Proof.
  destruct (consecutive_chunks_overlap (init None None) (text_of_words 1900)
                                       eq_refl eq_refl)
    as (chunks & Hrun & Hshare).
  exists chunks. split; [exact Hrun |].
  assert (Hlen : len chunks = 2).
  { assert (E : Ok chunks
                = Ok (A := list str)
                     [join (lit " ") (repeat (lit "a") 1900);
                      join (lit " ") (repeat (lit "a") 100)])
      by (rewrite <- Hrun; vm_compute; reflexivity).
    injection E as ->. reflexivity. }
  destruct (Hshare 0) as (c & c' & Hc & Hc' & _ & _ & Hall);
    [lia | rewrite Hlen; reflexivity |].
  exists c, c'. split; [exact Hc |]. split; [exact Hc' |].
  apply Hall. vm_compute. discriminate.
Defined.

(** X3.  The chunker depends on its step being positive: when
    [chunk_overlap] equals [chunk_size], every call raises [ValueError],
    whatever the text; when [chunk_overlap] exceeds [chunk_size], every
    call returns no chunk at all, whatever the text. *)
Theorem chunker_needs_a_positive_step (self : RAGStudyAssistant) (text : str) :
  (chunk_overlap self = chunk_size self ->
   _chunk_text self text
   = Raise (PyExc "ValueError" (lit "range() arg 3 must not be zero")))
  /\ (chunk_size self < chunk_overlap self -> _chunk_text self text = Ok []).
Proof.
  unfold _chunk_text, range. split; intros Hcfg.
  - rewrite Hcfg, Z.sub_diag. reflexivity.
  - destruct (Z.eqb_spec (chunk_size self - chunk_overlap self) 0); [lia |].
    destruct (Z.ltb_spec 0 (chunk_size self - chunk_overlap self)); [lia |].
    cbn [bind]. rewrite Z.sub_0_l.
    replace (Z.to_nat (- len (split_ws text))) with 0%nat
      by (unfold len; lia).
    reflexivity.
Qed.

Lemma chunker_needs_a_positive_step_witness :
  let equal := {| embedder := None; qa_pipeline := None;
                  vector_index := None; documents := [];
                  chunk_size := 200; chunk_overlap := 200 |} in
  let larger := {| embedder := None; qa_pipeline := None;
                   vector_index := None; documents := [];
                   chunk_size := 200; chunk_overlap := 300 |} in
  _chunk_text equal (lit "revise the notes")
  = Raise (PyExc "ValueError" (lit "range() arg 3 must not be zero"))
  /\ _chunk_text larger (lit "revise the notes") = Ok [].
Proof.
  intros equal larger. split.
  - apply (chunker_needs_a_positive_step equal (lit "revise the notes")).
    reflexivity.
  - apply (chunker_needs_a_positive_step larger (lit "revise the notes")).
    reflexivity.
Defined.

(** X4.  With [chunk_size = 2000] and [chunk_overlap = 200], a chunk of at
    most 1800 words is a fixed point of the chunker: chunking it again, as
    [query] does with the context texts it is given, returns that chunk
    alone. *)
Theorem small_chunks_are_stable
        (self : RAGStudyAssistant) (text c : str) (chunks : list str) :
  chunk_size self = 2000 -> chunk_overlap self = 200 ->
  _chunk_text self text = Ok chunks -> In c chunks ->
  len (split_ws c) <= 1800 ->
  _chunk_text self c = Ok [c].
Proof.
  intros Hsize Hoverlap Hrun Hin Hsmall.
  rewrite chunk_text_windows in Hrun by lia. injection Hrun as <-.
  apply in_map_iff in Hin as (w & <- & Hw).
  set (ws := windows _ _ _ _) in Hw.
  assert (Hwords : Forall (fun x => is_word x = true) w).
  { pose proof (windows_Forall (Z.to_nat (chunk_size self))
                               (Z.to_nat (chunk_size self - chunk_overlap self))
                               _ (length (split_ws text)) (split_ws text)
                               (split_ws_words text)) as Hall.
    rewrite Forall_forall in Hall. now apply Hall. }
  assert (Hne : w <> []).
  { pose proof (windows_nonempty (length (split_ws text))
                                 (Z.to_nat (chunk_size self))
                                 (Z.to_nat (chunk_size self - chunk_overlap self))
                                 (split_ws text)) as Hall.
    rewrite Forall_forall in Hall. apply Hall; [lia | exact Hw]. }
  rewrite split_ws_join in Hsmall by assumption.
  rewrite chunk_text_single; rewrite ?split_ws_join by assumption;
    try lia; [reflexivity |].
  destruct w; [congruence | unfold len in *; simpl in *; lia].
Qed.

Lemma small_chunks_are_stable_witness :
  _chunk_text (init None None) (lit "revise the notes")
  = Ok [lit "revise the notes"].
Proof.
  apply (small_chunks_are_stable
           (init None None) (lit ("  revise   the" ++ nl ++ "notes "))
           (lit "revise the notes") [lit "revise the notes"]
           eq_refl eq_refl).
  - reflexivity.
  - left. reflexivity.
  - vm_compute. discriminate.
Defined.

(* ================================================================== *)
(** ** Further properties of the embedding indexer *)
(* ================================================================== *)

(** X5.  Whatever happens in [add_documents], whether it returns or raises,
    the Document Store only grows at its end and an index that exists
    keeps its dimension and its rows, new rows coming after them; the
    chunking configuration is not touched. *)
Theorem store_and_index_only_grow (self : RAGStudyAssistant) (docs : list str) :
  let self' := snd (add_documents self docs) in
  (exists added, documents self' = documents self ++ added)
  /\ (forall ix, vector_index self = Some ix ->
                 exists ix' added_rows,
                   vector_index self' = Some ix'
                   /\ d ix' = d ix /\ xb ix' = xb ix ++ added_rows)
  /\ chunk_size self' = chunk_size self
  /\ chunk_overlap self' = chunk_overlap self.
Proof.
  assert (Hsame : forall added,
             (exists added', documents self ++ added = documents self ++ added')
             /\ (forall ix, vector_index self = Some ix ->
                            exists ix' added_rows,
                              vector_index self = Some ix'
                              /\ d ix' = d ix /\ xb ix' = xb ix ++ added_rows)).
  { intros added. split; [now exists added |].
    intros ix Hix. exists ix, []. now rewrite app_nil_r. }
  cbv zeta. unfold add_documents.
  destruct (negb (nonempty docs)).
  { cbn [snd]. destruct (Hsame []) as [_ Hindex].
    split; [exists []; now rewrite app_nil_r |].
    split; [exact Hindex | now split]. }
  destruct (chunk_all self [] docs) as [all_chunks | e].
  2: { cbn [snd]. destruct (Hsame []) as [_ Hindex].
       split; [exists []; now rewrite app_nil_r |].
       split; [exact Hindex | now split]. }
  destruct (Hsame all_chunks) as [Hstore Hindex].
  destruct (range 0 (len all_chunks) batch_size) as [starts | e];
    [| cbn [snd]; split; [exact Hstore | split; [exact Hindex | now split]]].
  destruct (negb (nonempty (fold_left _ starts [])));
    [cbn [snd]; split; [exact Hstore | split; [exact Hindex | now split]] |].
  destruct (vstack _) as [embeddings | e];
    [| cbn [snd]; split; [exact Hstore | split; [exact Hindex | now split]]].
  cbn [vector_index set_documents]. clear Hindex.
  destruct (vector_index self) as [ix |] eqn:Hix.
  - unfold index_add. destruct (shape1 embeddings =? d ix); cbn [snd];
      (split; [exact Hstore | split; [| now split]]);
      intros ix0 E; injection E as <-.
    + exists {| d := d ix; xb := xb ix ++ rows embeddings |},
             (rows embeddings).
      now repeat split.
    + exists ix, []. now rewrite app_nil_r.
  - unfold index_add. destruct (shape1 embeddings =? d _); cbn [snd];
      (split; [exact Hstore | split; [discriminate | now split]]).
Qed.

Lemma store_and_index_only_grow_witness :
  let self' := snd (add_documents sample_service [lit "eta theta"]) in
  exists added added_rows ix',
    documents self' = documents sample_service ++ added
    /\ vector_index self' = Some ix'
    /\ xb ix' = [[10; 2]; [5; 1]; [18; 3]] ++ added_rows.
Proof.
  intros self'.
  destruct (store_and_index_only_grow sample_service [lit "eta theta"])
    as ([added Hstore] & Hindex & _).
  destruct (Hindex {| d := 2; xb := [[10; 2]; [5; 1]; [18; 3]] |})
    as (ix' & added_rows & Hix' & _ & Hrows);
    [vm_compute; reflexivity |].
  exists added, added_rows, ix'.
  split; [exact Hstore |]. split; [exact Hix' | exact Hrows].
Defined.

(** When no batch can be embedded, the loop gathers nothing. *)
Lemma embed_loop_all_fail (self : RAGStudyAssistant) (all_chunks : list str) :
  (forall texts, exists e, encode self texts = Raise e) ->
  forall (starts : list Z) (embeddings_list : list ndarray),
    fold_left (embed_step self all_chunks) starts embeddings_list
    = embeddings_list.
Proof.
  intros Hfail. induction starts as [| i starts IH]; intros acc;
    [reflexivity |].
  cbn [fold_left]. unfold embed_step at 2.
  destruct (Hfail (slice all_chunks (Some i) (Some (i + batch_size))))
    as [e ->].
  apply IH.
Qed.

(** X6.  When the embedder is missing or every embedding call raises,
    [add_documents] still returns normally: the chunks of the documents
    are stored, document after document, and the vector index is left
    exactly as it was, so the chunks stored by such a call have no row. *)
Theorem add_documents_without_embeddings
        (self : RAGStudyAssistant) (docs : list str) :
  0 < chunk_size self -> chunk_overlap self < chunk_size self ->
  (forall texts, exists e, encode self texts = Raise e) ->
  let self' := snd (add_documents self docs) in
  fst (add_documents self docs) = Ok tt
  /\ (exists per_doc,
        chunks_of_documents self docs per_doc
        /\ documents self' = documents self ++ concat per_doc)
  /\ vector_index self' = vector_index self.
Proof.
  intros Hsize Hstep Hfail. cbv zeta. unfold add_documents.
  destruct (chunk_all_spec self docs Hsize Hstep [])
    as (per_doc & Hper & Hchunks).
  cbn [app] in Hchunks.
  destruct docs as [| doc docs].
  { cbn [nonempty negb fst snd]. repeat split.
    exists []. split; [constructor | simpl; now rewrite app_nil_r]. }
  cbn [nonempty negb]. rewrite Hchunks.
  unfold range. change (batch_size =? 0) with false.
  change (0 <? batch_size) with true. cbv iota.
  rewrite embed_loop_all_fail by exact Hfail.
  cbn [nonempty negb fst snd set_documents documents vector_index].
  repeat split. exists per_doc. now split.
Qed.

Lemma add_documents_without_embeddings_witness :
  let self' := snd (add_documents (init None None) sample_documents) in
  fst (add_documents (init None None) sample_documents) = Ok tt
  /\ documents self' = sample_documents
  /\ vector_index self' = None.
Proof.
  destruct (add_documents_without_embeddings
              (init None None) sample_documents eq_refl eq_refl)
    as (Hreturn & _ & Hindex).
  - intros texts. eexists. reflexivity.
  - split; [exact Hreturn |]. split; [reflexivity | exact Hindex].
Defined.

(** The batching loop when batches may fail: the arrays gathered have at
    most one row per chunk from position [i] on. *)
Lemma embed_loop_partial (self : RAGStudyAssistant) (all_chunks : list str)
      (dim : Z) :
  (forall texts m, encode self texts = Ok m ->
                   shape1 m = dim /\ len (rows m) = len texts) ->
  forall (fuel : nat) (i : Z) (embeddings_list : list ndarray),
    0 <= i ->
    exists ms,
      fold_left (embed_step self all_chunks)
                (range_up fuel i (len all_chunks) batch_size) embeddings_list
      = embeddings_list ++ ms
      /\ Forall (fun m => shape1 m = dim) ms
      /\ len (flat_map rows ms) <= Z.max 0 (len all_chunks - i).
Proof.
  intros Hshape. induction fuel as [| fuel IH]; intros i acc Hi.
  - exists []. cbn [range_up fold_left]. rewrite app_nil_r.
    split; [reflexivity |]. split; [constructor |].
    unfold len. cbn [flat_map length Z.of_nat]. lia.
  - cbn [range_up].
    destruct (Z.ltb_spec i (len all_chunks)) as [Hin | Hout].
    + cbn [fold_left]. unfold embed_step at 2.
      destruct (encode self _) as [m | e] eqn:Hm.
      * destruct (Hshape _ _ Hm) as [Hdim Hrows].
        destruct (IH (i + batch_size) (acc ++ [m])) as (ms & Hrun & Hdims & Hlen);
          [unfold batch_size; lia |].
        exists (m :: ms). rewrite Hrun, <- app_assoc.
        split; [reflexivity |]. split; [now constructor |].
        cbn [flat_map]. unfold len in *. rewrite length_app, Nat2Z.inj_add.
        rewrite Hrows, slice_window by (unfold batch_size; lia).
        rewrite length_firstn, length_skipn. unfold batch_size in *. lia.
      * destruct (IH (i + batch_size) acc) as (ms & Hrun & Hdims & Hlen);
          [unfold batch_size; lia |].
        exists ms. split; [exact Hrun |]. split; [exact Hdims |].
        unfold batch_size in *. lia.
    + exists []. cbn [fold_left]. rewrite app_nil_r.
      split; [reflexivity |]. split; [constructor |].
      unfold len. cbn [flat_map length Z.of_nat]. lia.
Qed.

(** X7.  With an embedder that, when it answers, gives one row of the
    index's width per text, the vector index never has more rows than the
    Document Store has chunks: [add_documents] returns normally and keeps
    that bound, however many of its batches fail. *)
Theorem index_never_outgrows_store
        (self : RAGStudyAssistant) (docs : list str) (dim : Z) :
  0 < chunk_size self -> chunk_overlap self < chunk_size self ->
  index_dim_is self dim ->
  index_rows self <= len (documents self) ->
  (forall texts m, encode self texts = Ok m ->
                   shape1 m = dim /\ len (rows m) = len texts) ->
  let self' := snd (add_documents self docs) in
  fst (add_documents self docs) = Ok tt
  /\ index_rows self' <= len (documents self')
  /\ index_dim_is self' dim.
Proof.
  intros Hsize Hstep Hdim Hbound Hshape. cbv zeta. unfold add_documents.
  destruct docs as [| doc docs]; [now cbn [nonempty negb fst snd] |].
  cbn [nonempty negb].
  destruct (chunk_all_spec self (doc :: docs) Hsize Hstep [])
    as (per_doc & _ & ->).
  cbn [app]. set (all_chunks := concat per_doc).
  set (self1 := set_documents self (documents self ++ all_chunks)).
  assert (Hbound1 : index_rows self1 <= len (documents self1)).
  { unfold index_rows, self1 in *. cbn [vector_index documents set_documents].
    unfold len in *. rewrite length_app. lia. }
  unfold range. change (batch_size =? 0) with false.
  change (0 <? batch_size) with true. cbv iota.
  destruct (embed_loop_partial self1 all_chunks dim Hshape
                               (Z.to_nat (len all_chunks - 0)) 0 [])
    as (ms & -> & Hdims & Hrows); [lia |].
  cbn [app]. rewrite Z.sub_0_r, Z.max_r in Hrows by apply len_nonneg.
  destruct ms as [| m ms]; [now cbn [nonempty negb fst snd] |].
  cbn [nonempty negb].
  rewrite (vstack_same_width dim) by (assumption || discriminate).
  change (vector_index self1) with (vector_index self).
  unfold index_rows, index_dim_is in *. cbn [shape1].
  change (documents self1) with (documents self ++ all_chunks) in *.
  change (vector_index self1) with (vector_index self) in *.
  destruct (vector_index self) as [ix |].
  - unfold index_add. cbn [shape1 rows]. rewrite Hdim, Z.eqb_refl.
    cbn [fst snd set_vector_index vector_index documents set_documents d].
    split; [reflexivity |]. split; [| reflexivity].
    change (documents self1) with (documents self ++ all_chunks).
    unfold ntotal, len in *. cbn [xb app] in *.
    rewrite ?length_app, ?Nat2Z.inj_add in *. lia.
  - unfold index_add, new_index. cbn [shape1 rows d xb]. rewrite Z.eqb_refl.
    cbn [fst snd set_vector_index vector_index documents set_documents d].
    split; [reflexivity |]. split; [| reflexivity].
    change (documents self1) with (documents self ++ all_chunks).
    unfold ntotal, len in *. cbn [xb app] in *.
    rewrite ?length_app, ?Nat2Z.inj_add in *. lia.
Qed.

Lemma index_never_outgrows_store_witness :
  let self' :=
    snd (add_documents (init (Some failing_embedder) None) sample_documents) in
  fst (add_documents (init (Some failing_embedder) None) sample_documents)
  = Ok tt
  /\ index_rows self' <= len (documents self').
Proof.
  destruct (index_never_outgrows_store
              (init (Some failing_embedder) None) sample_documents 2
              eq_refl eq_refl I)
    as (Hreturn & Hbound & _).
  - vm_compute. discriminate.
  - intros texts m Hm. discriminate Hm.
  - split; [exact Hreturn | exact Hbound].
Defined.

(** X8.  When the index exists with another dimension than the embeddings
    of a call whose batches all succeed, [add_documents] raises on
    [index.add], after the chunks have been stored: the store has grown
    by all the chunks of the call and the index is as it was. *)
Theorem dimension_mismatch_keeps_the_chunks
        (self : RAGStudyAssistant) (docs all_chunks : list str)
        (ix : IndexFlatL2) (dim : Z) :
  vector_index self = Some ix -> d ix <> dim ->
  chunk_all self [] docs = Ok all_chunks -> all_chunks <> [] ->
  every_batch_succeeds self dim all_chunks ->
  let self' := snd (add_documents self docs) in
  fst (add_documents self docs) = Raise (PyExc "AssertionError" [])
  /\ documents self' = documents self ++ all_chunks
  /\ vector_index self' = Some ix.
Proof.
  intros Hix Hdim Hchunks Hne Hbatches. cbv zeta. unfold add_documents.
  destruct docs as [| doc docs];
    [cbn in Hchunks; injection Hchunks as <-; congruence |].
  cbn [nonempty negb]. rewrite Hchunks.
  set (self1 := set_documents self (documents self ++ all_chunks)).
  unfold range. change (batch_size =? 0) with false.
  change (0 <? batch_size) with true. cbv iota.
  destruct (embed_loop_spec self1 all_chunks dim Hbatches
                            (Z.to_nat (len all_chunks - 0)) 0 [])
    as (ms & Hrun & Hdims & _ & Hsome); [lia | unfold len; lia |].
  change (batch_size * 0) with 0 in *. rewrite Hrun. cbn [app].
  destruct ms as [| m ms].
  { exfalso. apply Hsome; [| reflexivity].
    destruct all_chunks; [congruence | unfold len; simpl; lia]. }
  cbn [nonempty negb].
  rewrite (vstack_same_width dim) by (assumption || discriminate).
  change (vector_index self1) with (vector_index self). rewrite Hix.
  unfold index_add. cbn [shape1].
  destruct (Z.eqb_spec dim (d ix)) as [E | _]; [congruence |].
  cbn [fst snd set_vector_index vector_index documents].
  now repeat split.
Qed.

Lemma dimension_mismatch_keeps_the_chunks_witness :
  let self := {| embedder := Some sample_embedder; qa_pipeline := None;
                 vector_index := Some (new_index 384); documents := [];
                 chunk_size := 2000; chunk_overlap := 200 |} in
  let self' := snd (add_documents self sample_documents) in
  fst (add_documents self sample_documents)
  = Raise (PyExc "AssertionError" [])
  /\ documents self' = sample_documents
  /\ vector_index self' = Some (new_index 384).
Proof.
  intros self.
  apply (dimension_mismatch_keeps_the_chunks
           self sample_documents sample_documents (new_index 384) 2).
  - reflexivity.
  - discriminate.
  - vm_compute. reflexivity.
  - discriminate.
  - intros k _ _. eexists. split; [reflexivity |].
    split; [reflexivity |]. unfold len. cbn [rows]. now rewrite length_map.
Defined.

(* ================================================================== *)
(** ** Further properties of the retriever *)
(* ================================================================== *)

Lemma insert_by_distance_perm (p : Z * Z) (l : list (Z * Z)) :
  Permutation (insert_by_distance p l) (p :: l).
Proof.
  induction l as [| p' l IH]; [reflexivity |].
  simpl. destruct (fst p' <=? fst p); [| reflexivity].
  rewrite IH. apply perm_swap.
Qed.

Lemma sort_by_distance_perm (l : list (Z * Z)) :
  Permutation (sort_by_distance l) l.
Proof.
  unfold sort_by_distance.
  assert (H : forall acc,
             Permutation
               (fold_left (fun acc p => insert_by_distance p acc) l acc)
               (l ++ acc)).
  { induction l as [| p l IH]; intros acc; [reflexivity |].
    cbn [fold_left]. rewrite IH, insert_by_distance_perm.
    symmetry. apply Permutation_middle. }
  rewrite H. now rewrite app_nil_r.
Qed.

(** The labels of the rows are their positions, each once. *)
Lemma distances_labels (q : vector) (xs : list vector) (label : Z) :
  Forall (fun i => label <= i < label + len xs)
         (map snd (distances q label xs))
  /\ NoDup (map snd (distances q label xs)).
Proof.
  revert label. induction xs as [| x xs IH]; intros label.
  - split; constructor.
  - destruct (IH (label + 1)) as [Hrange Hnodup].
    cbn [distances map snd]. unfold len in *. cbn [length].
    split; constructor.
    + lia.
    + eapply Forall_impl; [| exact Hrange]. cbv beta. intros i Hi. lia.
    + intros Hin. rewrite Forall_forall in Hrange.
      specialize (Hrange _ Hin). lia.
    + exact Hnodup.
Qed.

(** Asked for no more neighbours than it has rows, the index answers with
    that many positions of rows, each at most once. *)
Lemma search_row_full (ix : IndexFlatL2) (q : vector) (k : Z) :
  0 <= k <= ntotal ix ->
  len (search_row ix q k) = k
  /\ NoDup (search_row ix q k)
  /\ Forall (fun i => 0 <= i < ntotal ix) (search_row ix q k).
Proof.
  intros Hk. split; [apply search_row_length; lia |].
  unfold search_row.
  set (sorted := map snd (sort_by_distance (distances q 0 (xb ix)))).
  assert (Hperm : Permutation sorted (map snd (distances q 0 (xb ix))))
    by (apply Permutation_map, sort_by_distance_perm).
  destruct (distances_labels q (xb ix) 0) as [Hrange Hnodup].
  assert (Hlen : length sorted = length (xb ix)).
  { rewrite (Permutation_length Hperm), length_map. apply distances_length. }
  unfold ntotal, len in Hk.
  replace (Z.to_nat k - length (firstn (Z.to_nat k) sorted))%nat with 0%nat
    by (rewrite length_firstn; lia).
  cbn [repeat]. rewrite app_nil_r. split.
  - apply (NoDup_app_remove_r _ (skipn (Z.to_nat k) sorted)).
    rewrite firstn_skipn. apply (Permutation_NoDup (Permutation_sym Hperm)).
    exact Hnodup.
  - apply Forall_forall. intros i Hi.
    assert (Hin : In i sorted).
    { rewrite <- (firstn_skipn (Z.to_nat k) sorted). apply in_or_app.
      now left. }
    apply (Permutation_in _ Hperm) in Hin.
    rewrite Forall_forall in Hrange. specialize (Hrange _ Hin).
    unfold ntotal. lia.
Qed.

Lemma index_in_range {A} (l : list A) (i : Z) (default : A) :
  0 <= i < len l -> index l i = Ok (nth (Z.to_nat i) l default).
Proof.
  intros Hi. unfold index.
  destruct (Z.ltb_spec i 0); [lia |].
  destruct (Z.ltb_spec i 0); [lia |].
  destruct (Z.leb_spec (len l) i); [lia |]. cbn [orb].
  unfold len in Hi.
  rewrite (nth_error_nth' l default) by lia. reflexivity.
Qed.

Lemma read_documents_in_range (docs : list str) (labels : list Z) :
  Forall (fun i => 0 <= i < len docs) labels ->
  read_documents docs labels
  = Ok (map (fun i => nth (Z.to_nat i) docs []) labels).
Proof.
  induction 1 as [| i labels Hi _ IH]; [reflexivity |].
  cbn [read_documents map].
  now rewrite (index_in_range docs i []), IH by assumption.
Qed.

(** X9.  On a service that satisfies I1 and holds at least 30 chunks, the
    labels [query] reads are 30 distinct positions of the Document Store,
    and the context is the newline join of the 30 chunks at those
    positions, in the order of the labels. *)
Theorem query_reads_30_distinct_chunks
        (self : RAGStudyAssistant) (ix : IndexFlatL2) (qa : Pipeline)
        (question : str) (labels : list Z) :
  vector_index self = Some ix -> qa_pipeline self = Some qa ->
  len (documents self) = ntotal ix -> top_k <= ntotal ix ->
  search_labels self ix question = Ok labels ->
  len labels = 30
  /\ NoDup labels
  /\ Forall (fun i => 0 <= i < len (documents self)) labels
  /\ query_context self question None
     = Ok (inr (join (lit nl)
                     (map (fun i => nth (Z.to_nat i) (documents self) [])
                          labels))).
Proof.
  intros Hix Hqa HI1 Hfull Hlabels.
  assert (Hrow : exists q, labels = search_row ix q top_k).
  { unfold search_labels, index_search in Hlabels.
    destruct (encode self [question]) as [m | e]; [| discriminate].
    cbn [bind] in Hlabels.
    destruct (shape1 m =? d ix); [| discriminate]. cbn [bind] in Hlabels.
    destruct (rows m) as [| q qs]; [discriminate |].
    cbn [map] in Hlabels. rewrite index_head in Hlabels.
    injection Hlabels as <-. now exists q. }
  destruct Hrow as [q ->].
  destruct (search_row_full ix q top_k) as (Hlen & Hnodup & Hrange);
    [unfold top_k in *; lia |].
  rewrite <- HI1 in Hrange.
  split; [exact Hlen |]. split; [exact Hnodup |]. split; [exact Hrange |].
  unfold query_context. rewrite Hix, Hqa, Hlabels. cbn [bind].
  destruct (Z.eqb_spec (len (documents self)) 0) as [E | _];
    [unfold top_k in *; lia |].
  rewrite Hlen. change (top_k =? 0) with false. cbv iota.
  now rewrite read_documents_in_range.
Qed.

Lemma query_reads_30_distinct_chunks_witness :
  exists labels,
    search_labels full_service full_index (lit "aaa") = Ok labels
    /\ len labels = 30
    /\ NoDup labels.
Proof.
  assert (Hlabels : exists labels,
             search_labels full_service full_index (lit "aaa") = Ok labels)
    by (eexists; vm_compute; reflexivity).
  destruct Hlabels as [labels Hlabels]. exists labels.
  destruct (query_reads_30_distinct_chunks
              full_service full_index echo_pipeline (lit "aaa") labels)
    as (Hlen & Hnodup & _).
  - vm_compute. reflexivity.
  - vm_compute. reflexivity.
  - vm_compute. reflexivity.
  - vm_compute. discriminate.
  - exact Hlabels.
  - split; [exact Hlabels |]. split; [exact Hlen | exact Hnodup].
Defined.

Lemma fold_left_pointwise {A B} (f g : A -> B -> A) (l : list B) (a : A) :
  (forall x y, f x y = g x y) -> fold_left f l a = fold_left g l a.
Proof.
  intros Hfg. revert a. induction l as [| y l IH]; intros a; [reflexivity |].
  cbn [fold_left]. now rewrite Hfg, IH.
Qed.

(** The chunker reads nothing of the service but its two sizes. *)
Lemma chunk_text_same_config (self self' : RAGStudyAssistant) (text : str) :
  chunk_size self = chunk_size self' ->
  chunk_overlap self = chunk_overlap self' ->
  _chunk_text self text = _chunk_text self' text.
Proof.
  intros Hsize Hoverlap. unfold _chunk_text. rewrite Hsize, Hoverlap.
  destruct (range _ _ _) as [starts | e]; [| reflexivity].
  cbn [bind]. f_equal. apply fold_left_pointwise.
  intros chunks i. unfold chunk_step. now rewrite Hsize.
Qed.

Lemma chunk_all_same_config (self self' : RAGStudyAssistant)
      (texts all_chunks : list str) :
  chunk_size self = chunk_size self' ->
  chunk_overlap self = chunk_overlap self' ->
  chunk_all self all_chunks texts = chunk_all self' all_chunks texts.
Proof.
  intros Hsize Hoverlap. revert all_chunks.
  induction texts as [| text texts IH]; intros all_chunks; [reflexivity |].
  cbn [chunk_all]. rewrite (chunk_text_same_config self self') by assumption.
  destruct (_chunk_text self' text); [| reflexivity].
  cbn [bind]. apply IH.
Qed.

(** X10.  Given context texts, [query] does not look at the Document
    Store, the vector index or the embedder: two services with the same
    generation pipeline and the same chunk sizes give the same result,
    so the call works before any document was added. *)
Theorem supplied_context_bypasses_the_index
        (self self' : RAGStudyAssistant)
        (question answer_format : str) (texts : list str) :
  texts <> [] ->
  qa_pipeline self = qa_pipeline self' ->
  chunk_size self = chunk_size self' ->
  chunk_overlap self = chunk_overlap self' ->
  query self question (Some texts) answer_format
  = query self' question (Some texts) answer_format.
Proof.
  intros Htexts Hqa Hsize Hoverlap.
  destruct texts as [| text texts]; [congruence |].
  unfold query, query_context.
  rewrite (chunk_all_same_config self self') by assumption.
  destruct (chunk_all self' [] (text :: texts)); [| reflexivity].
  cbn [bind]. unfold invoke_generation, generate_text. now rewrite Hqa.
Qed.

Lemma supplied_context_bypasses_the_index_witness :
  query sample_service (lit "What is algebra?")
        (Some [lit "Algebra studies symbols."]) (lit "one_word")
  = query (init None (Some echo_pipeline)) (lit "What is algebra?")
          (Some [lit "Algebra studies symbols."]) (lit "one_word").
Proof.
  apply (supplied_context_bypasses_the_index
           sample_service (init None (Some echo_pipeline))
           (lit "What is algebra?") (lit "one_word")
           [lit "Algebra studies symbols."]).
  - discriminate.
  - reflexivity.
  - reflexivity.
  - reflexivity.
Defined.

(** X11.  An exception of the embedder while the question is embedded is
    not caught: on a service with an index, stored chunks and a pipeline,
    [query] without context texts and [generate_notes] raise it. *)
Theorem embedding_errors_escape
        (self : RAGStudyAssistant) (ix : IndexFlatL2) (qa : Pipeline)
        (question answer_format : str) (e : exn) :
  vector_index self = Some ix -> documents self <> [] ->
  qa_pipeline self = Some qa ->
  encode self [question] = Raise e ->
  query self question None answer_format = Raise e
  /\ generate_notes self question = Raise e.
Proof.
  intros Hix Hdocs Hqa Hencode.
  assert (Hlen : (len (documents self) =? 0) = false).
  { destruct (documents self); [congruence |].
    apply Z.eqb_neq. unfold len. simpl. lia. }
  unfold query, query_context, generate_notes, search_labels.
  rewrite Hix, Hlen, Hqa, Hencode. now split.
Qed.

Lemma embedding_errors_escape_witness :
  let self := {| embedder := None; qa_pipeline := Some echo_pipeline;
                 vector_index := vector_index sample_service;
                 documents := documents sample_service;
                 chunk_size := 2000; chunk_overlap := 200 |} in
  query self (lit "gamma") None (lit "full") = Raise (none_has_no "encode")
  /\ generate_notes self (lit "gamma") = Raise (none_has_no "encode").
Proof.
  intros self.
  apply (embedding_errors_escape
           self
           {| d := 2; xb := [[10; 2]; [5; 1]; [18; 3]] |}
           echo_pipeline (lit "gamma") (lit "full") (none_has_no "encode")).
  - vm_compute. reflexivity.
  - vm_compute. discriminate.
  - reflexivity.
  - reflexivity.
Defined.

(** X12.  Without a generation pipeline, [query] answers differently on
    its two paths: on the index path (index and stored chunks present) it
    returns "QA model is not loaded properly."; given context texts it
    goes on to the generation and returns the text of the error of
    reading [task] on [None]. *)
Theorem query_without_pipeline
        (self : RAGStudyAssistant) (question answer_format : str)
        (texts : list str) :
  0 < chunk_size self -> chunk_overlap self < chunk_size self ->
  qa_pipeline self = None ->
  (vector_index self <> None -> documents self <> [] ->
   query self question None answer_format = Ok msg_no_model)
  /\ (texts <> [] ->
      query self question (Some texts) answer_format
      = Ok (lit "Error during generation: 'NoneType' object has no attribute 'task'")).
Proof.
  intros Hsize Hstep Hqa. split.
  - intros Hix Hdocs. unfold query, query_context.
    destruct (vector_index self); [| congruence].
    destruct (documents self); [congruence |].
    rewrite Hqa. reflexivity.
  - intros Htexts. destruct texts as [| text texts]; [congruence |].
    unfold query, query_context.
    destruct (chunk_all_spec self (text :: texts) Hsize Hstep [])
      as (per_doc & _ & ->).
    cbn [bind]. unfold invoke_generation, generate_text. now rewrite Hqa.
Qed.

Lemma query_without_pipeline_witness :
  let indexed := {| embedder := Some sample_embedder; qa_pipeline := None;
                    vector_index := vector_index sample_service;
                    documents := documents sample_service;
                    chunk_size := 2000; chunk_overlap := 200 |} in
  show (match query indexed (lit "gamma") None (lit "full") with
        | Ok answer => answer
        | Raise _ => []
        end)
  = "QA model is not loaded properly."%string
  /\ show (match query indexed (lit "gamma") (Some [lit "gamma rays"])
                       (lit "full") with
           | Ok answer => answer
           | Raise _ => []
           end)
     = "Error during generation: 'NoneType' object has no attribute 'task'"%string.
Proof.
  intros indexed.
  destruct (query_without_pipeline indexed (lit "gamma") (lit "full")
                                   [lit "gamma rays"] eq_refl eq_refl eq_refl)
    as [Hindex Htexts].
  rewrite Hindex, Htexts by (vm_compute; discriminate).
  split; reflexivity.
Defined.

(* ================================================================== *)
(** ** Properties of the notes *)
(* ================================================================== *)

(** [generate_notes] is the retrieval of [query] on the index followed by
    its own generation. *)
Lemma generate_notes_as_query (self : RAGStudyAssistant) (topic : str) :
  generate_notes self topic
  = match query_context self topic None with
    | Raise e => Raise e
    | Ok (inl message) =>
        Ok (if str_eqb message msg_no_documents
            then msg_no_documents_for_notes else message)
    | Ok (inr context) =>
        Ok (match generate_text self (notes_prompt context topic) 2048 with
            | Ok generated_text => generated_text
            | Raise e => lit "Error during notes generation: " ++ exn_str e
            end)
    end.
Proof.
  unfold generate_notes, query_context.
  destruct (vector_index self) as [ix |]; [| reflexivity].
  destruct (len (documents self) =? 0); [reflexivity |].
  destruct (qa_pipeline self) as [qa |] eqn:Hqa; [| reflexivity].
  destruct (search_labels self ix topic) as [I0 | e]; [| reflexivity].
  cbn [bind]. destruct (len I0 =? 0); [reflexivity |].
  destruct (read_documents (documents self) I0) as [found | e];
    [| reflexivity].
  cbn [bind]. now destruct (generate_text self _ 2048).
Qed.

(** X13.  [generate_notes] retrieves exactly as [query] does without
    context texts: when [query] would go on with a context for the text
    of the topic, [generate_notes] generates from the notes prompt built
    on that same context; when [query] would raise while retrieving,
    [generate_notes] raises the same exception; and the messages for a
    missing index, an empty store or a missing pipeline are the same. *)
Theorem generate_notes_retrieves_like_query
        (self : RAGStudyAssistant) (topic : str) :
  (forall context,
      query_context self topic None = Ok (inr context) ->
      generate_notes self topic
      = Ok (match generate_text self (notes_prompt context topic) 2048 with
            | Ok generated_text => generated_text
            | Raise e => lit "Error during notes generation: " ++ exn_str e
            end))
  /\ (forall e, query_context self topic None = Raise e ->
                generate_notes self topic = Raise e)
  /\ (forall message,
        query_context self topic None = Ok (inl message) ->
        message <> msg_no_documents ->
        generate_notes self topic = Ok message).
Proof.
  rewrite generate_notes_as_query. split; [| split].
  - now intros context ->.
  - now intros e ->.
  - intros message -> Hmessage.
    destruct (str_eqb message msg_no_documents) eqn:E; [| reflexivity].
    apply str_eqb_eq in E. congruence.
Qed.

Lemma generate_notes_retrieves_like_query_witness :
  query_context sample_service (lit "gamma") None
  = Ok (inr (join (lit nl)
                  ([lit "gamma"; lit "alpha beta"; lit "delta epsilon zeta"]
                   ++ repeat (lit "delta epsilon zeta") 27)))
  /\ generate_notes sample_service (lit "gamma")
     = Ok (notes_prompt
             (join (lit nl)
                   ([lit "gamma"; lit "alpha beta"; lit "delta epsilon zeta"]
                    ++ repeat (lit "delta epsilon zeta") 27))
             (lit "gamma"))
  /\ generate_notes (init None None) (lit "gamma") = Ok msg_no_materials.
Proof.
  destruct (generate_notes_retrieves_like_query sample_service (lit "gamma"))
    as (Hcontext & _ & _).
  destruct (generate_notes_retrieves_like_query (init None None) (lit "gamma"))
    as (_ & _ & Hmessage).
  split; [vm_compute; reflexivity |]. split.
  - rewrite (Hcontext _ ltac:(vm_compute; reflexivity)).
    vm_compute. reflexivity.
  - apply Hmessage; [reflexivity | vm_compute; discriminate].
Defined.



(* ================================================================== *)
(** ** Properties of the exporter *)
(* ================================================================== *)

Lemma lower_char_idempotent (c : ascii) :
  lower_char (lower_char c) = lower_char c.
Proof. destruct c as [[] [] [] [] [] [] [] []]; reflexivity. Qed.

Lemma lower_idempotent (s : str) : lower (lower s) = lower s.
Proof.
  unfold lower. rewrite map_map. apply map_ext. exact lower_char_idempotent.
Qed.

(** X15.  [export_notes] reads its format without regard to letter case:
    a format and its lower-case form give the same export or the same
    exception, whatever the library does. *)
Theorem export_notes_ignores_case
        (lib : Library) (notes filename format : str) :
  export_notes lib notes filename format
  = export_notes lib notes filename (lower format).
Proof. unfold export_notes. now rewrite lower_idempotent. Qed.

(** X16.  For notes that are a text, [export_notes] with a format that is,
    in lower case, none of txt, pdf, word, json, excel and chart raises
    [ValueError] with the lower-case format in its message, without any
    write; with one of the five formats for texts its outcome is the
    outcome of the one write of that format, of the notes or of their
    lines under the given file name; with chart it raises
    [AttributeError] without any write. *)
Theorem export_notes_formats
        (lib : Library) (notes filename format : str) :
  (~ In (lower format) export_formats ->
   export_notes lib notes filename format
   = Raise (PyExc "ValueError"
                  (lit "Unsupported export format: " ++ lower format)))
  /\ (lower format = lit "txt" ->
      export_notes lib notes filename format = lib (TxtFile filename notes))
  /\ (lower format = lit "pdf" ->
      export_notes lib notes filename format
      = lib (PdfFile filename (split_sep (lit nl) notes)))
  /\ (lower format = lit "word" ->
      export_notes lib notes filename format
      = lib (WordFile filename (split_sep (lit nl) notes)))
  /\ (lower format = lit "json" ->
      export_notes lib notes filename format = lib (JsonFile filename notes))
  /\ (lower format = lit "excel" ->
      export_notes lib notes filename format
      = lib (ExcelFile filename (split_sep (lit nl) notes)))
  /\ (lower format = lit "chart" ->
      export_notes lib notes filename format
      = Raise (PyExc "AttributeError"
                     (lit "'str' object has no attribute 'keys'"))).
Proof.
  split.
  - intros Hout. unfold export_notes. cbv zeta.
    assert (Hneq : forall name, In name export_formats ->
                                str_eqb (lower format) name = false).
    { intros name Hname. destruct (str_eqb (lower format) name) eqn:E;
        [| reflexivity].
      apply str_eqb_eq in E. subst name. contradiction. }
    rewrite !Hneq; [reflexivity | unfold export_formats, text_export_formats;
                                  simpl; tauto ..].
  - unfold export_notes. cbv zeta.
    repeat split; intros ->; reflexivity.
Qed.

Lemma export_notes_formats_witness :
  export_notes no_word_library (lit "Algebra studies symbols.")
               (lit "notes.docx") (lit "DOCX")
  = Raise (PyExc "ValueError" (lit "Unsupported export format: docx"))
  /\ export_notes no_word_library (lit "Algebra studies symbols.")
                  (lit "notes.txt") (lit "TXT")
     = Ok tt
  /\ export_notes no_word_library (lit "Algebra studies symbols.")
                  (lit "notes.docx") (lit "Word")
     = Raise (PyExc "ValueError" (lit "All strings must be XML compatible")).
Proof.
  destruct (export_notes_formats no_word_library
                                 (lit "Algebra studies symbols.")
                                 (lit "notes.docx") (lit "DOCX"))
    as [Hunsupported _].
  destruct (export_notes_formats no_word_library
                                 (lit "Algebra studies symbols.")
                                 (lit "notes.txt") (lit "TXT"))
    as (_ & Htxt & _).
  destruct (export_notes_formats no_word_library
                                 (lit "Algebra studies symbols.")
                                 (lit "notes.docx") (lit "Word"))
    as (_ & _ & _ & Hword & _).
  split; [| split].
  - apply Hunsupported. intros Hin. vm_compute in Hin.
    repeat (destruct Hin as [Hin | Hin]; [discriminate Hin |]).
    exact Hin.
  - rewrite Htxt by reflexivity. reflexivity.
  - rewrite Hword by reflexivity. reflexivity.
Defined.

Lemma startswith_skipn (sep s : str) :
  startswith sep s = true -> s = sep ++ skipn (length sep) s.
Proof.
  revert s. induction sep as [| a sep IH]; intros s Hs; [reflexivity |].
  destruct s as [| b s]; [discriminate |].
  simpl in Hs. apply andb_true_iff in Hs as [Hab Hs].
  apply Ascii.eqb_eq in Hab. subst b. cbn [length skipn app].
  f_equal. now apply IH.
Qed.

Lemma join_cons (sep p : str) (ps : list str) :
  ps <> [] -> join sep (p :: ps) = p ++ sep ++ join sep ps.
Proof. destruct ps; [congruence | reflexivity]. Qed.

Lemma split_sep_loop_nonempty (fuel : nat) (sep cur s : str) :
  split_sep_loop fuel sep cur s <> [].
Proof.
  revert cur s. induction fuel as [| fuel IH]; intros cur s;
    [destruct s; discriminate |].
  destruct s as [| c s]; [discriminate |].
  cbn [split_sep_loop]. destruct (startswith sep (c :: s));
    [discriminate | apply IH].
Qed.

(** Joining the pieces of a split with the separator gives the text back. *)
Lemma split_sep_loop_join (sep : str) :
  sep <> [] ->
  forall (fuel : nat) (cur s : str),
    (length s <= fuel)%nat ->
    join sep (split_sep_loop fuel sep cur s) = cur ++ s.
Proof.
  intros Hsep. induction fuel as [| fuel IH]; intros cur s Hfuel.
  - destruct s; [simpl; now rewrite app_nil_r | simpl in Hfuel; lia].
  - destruct s as [| c s]; [simpl; now rewrite app_nil_r |].
    cbn [split_sep_loop]. destruct (startswith sep (c :: s)) eqn:Hstart.
    + rewrite join_cons by apply split_sep_loop_nonempty.
      rewrite IH.
      * cbn [app]. now rewrite <- startswith_skipn.
      * rewrite length_skipn. destruct sep; [congruence |].
        simpl in *. lia.
    + rewrite IH by (simpl in Hfuel; lia).
      now rewrite <- app_assoc.
Qed.

Lemma split_sep_join (sep s : str) :
  sep <> [] -> join sep (split_sep sep s) = s.
Proof.
  intros Hsep. unfold split_sep. now rewrite split_sep_loop_join.
Qed.

(** Splitting at a character: no piece holds the character, and there is
    one piece more than occurrences of the character. *)
Lemma split_char_loop (c : ascii) :
  forall (fuel : nat) (cur s : str),
    (length s <= fuel)%nat -> ~ In c cur ->
    Forall (fun piece => ~ In c piece) (split_sep_loop fuel [c] cur s)
    /\ length (split_sep_loop fuel [c] cur s) = S (count_occ ascii_dec s c).
Proof.
  induction fuel as [| fuel IH]; intros cur s Hfuel Hcur.
  - destruct s; [| simpl in Hfuel; lia].
    split; [now repeat constructor | reflexivity].
  - destruct s as [| x s]; [split; [now repeat constructor | reflexivity] |].
    cbn [split_sep_loop startswith skipn length].
    destruct (Ascii.eqb_spec c x) as [-> | Hcx]; cbn [andb].
    + destruct (IH [] s) as [Hpieces Hcount];
        [simpl in Hfuel; lia | intros [] |].
      rewrite count_occ_cons_eq by reflexivity.
      split; [now constructor | cbn [length]; now rewrite Hcount].
    + destruct (IH (cur ++ [x]) s) as [Hpieces Hcount];
        [simpl in Hfuel; lia | |].
      { intros Hin. apply in_app_or in Hin as [Hin | [Hin | []]];
          [tauto | congruence]. }
      rewrite count_occ_cons_neq by congruence. now split.
Qed.

(* ================================================================== *)
(** ** Further properties of the flashcard parser *)
(* ================================================================== *)

Lemma lstrip_head (s : str) :
  match lstrip s with [] => True | c :: _ => isspace c = false end.
Proof.
  induction s as [| c s IH]; [exact I |].
  simpl. destruct (isspace c) eqn:Hc; [exact IH | exact Hc].
Qed.

Lemma lstrip_fixed (s : str) :
  match s with [] => True | c :: _ => isspace c = false end ->
  lstrip s = s.
Proof. destruct s as [| c s]; [reflexivity |]. simpl. now intros ->. Qed.

Lemma lstrip_suffix (s : str) : exists sp, s = sp ++ lstrip s.
Proof.
  induction s as [| c s [sp IH]]; [now exists [] |].
  simpl. destruct (isspace c); [| now exists []].
  exists (c :: sp). simpl. now f_equal.
Qed.

Lemma rstrip_prefix (s : str) : exists sp, s = rstrip s ++ sp.
Proof.
  destruct (lstrip_suffix (rev s)) as [sp Hsp]. exists (rev sp).
  unfold rstrip. rewrite <- rev_app_distr, <- Hsp. now rewrite rev_involutive.
Qed.

Lemma rstrip_keeps_head (s : str) :
  match s with [] => True | c :: _ => isspace c = false end ->
  match rstrip s with [] => True | c :: _ => isspace c = false end.
Proof.
  intros Hs. destruct (rstrip_prefix s) as [sp Hsp].
  destruct (rstrip s) as [| c r]; [exact I |].
  rewrite Hsp in Hs. exact Hs.
Qed.

(** Stripping twice is stripping once. *)
Lemma strip_idempotent (s : str) : strip (strip s) = strip s.
Proof.
  unfold strip at 1.
  rewrite (lstrip_fixed (strip s))
    by (apply rstrip_keeps_head, lstrip_head).
  unfold strip, rstrip. rewrite rev_involutive. f_equal.
  apply lstrip_fixed, lstrip_head.
Qed.

Lemma new_flashcard_well_formed (q a : str) :
  nonempty (strip q) && nonempty (strip a) = true ->
  well_formed_card (new_flashcard (strip q) (strip a)).
Proof.
  intros H. apply andb_true_iff in H as [Hq Ha].
  unfold well_formed_card, new_flashcard.
  cbn [question answer review_count last_reviewed].
  rewrite !strip_idempotent. now repeat split.
Qed.

Lemma marker_step_well_formed (flashcards : list Flashcard) (part : str) :
  Forall well_formed_card flashcards ->
  Forall well_formed_card (marker_step flashcards part).
Proof.
  intros Hcards. unfold marker_step.
  destruct (3 <=? len (split_sep (lit nl) part)); [| exact Hcards].
  destruct (filter _ _) as [| ql ?]; [exact Hcards |].
  destruct (filter _ _) as [| al ?]; [exact Hcards |].
  destruct (nonempty (strip _) && nonempty (strip _)) eqn:Hne;
    [| exact Hcards].
  apply Forall_app. split; [exact Hcards |].
  constructor; [| constructor]. now apply new_flashcard_well_formed.
Qed.

Lemma fallback_step_well_formed (flashcards : list Flashcard) (part : str) :
  Forall well_formed_card flashcards ->
  Forall well_formed_card (fallback_step flashcards part).
Proof.
  intros Hcards. unfold fallback_step.
  destruct (negb (find (lit "answer:") (lower part) =? -1)); [| exact Hcards].
  cbv zeta.
  destruct (negb (find (lit "question:") (lower (strip _)) =? -1)).
  - destruct (nonempty (strip _) && nonempty (strip _)) eqn:Hne;
      [| exact Hcards].
    apply Forall_app. split; [exact Hcards |].
    constructor; [| constructor]. now apply new_flashcard_well_formed.
  - destruct (nonempty (strip _) && nonempty (strip (strip _))) eqn:Hne;
      [| exact Hcards].
    apply Forall_app. split; [exact Hcards |].
    constructor; [| constructor]. now apply new_flashcard_well_formed.
Qed.

Lemma fold_left_Forall {A B} (P : A -> Prop) (f : list A -> B -> list A) :
  (forall acc b, Forall P acc -> Forall P (f acc b)) ->
  forall l acc, Forall P acc -> Forall P (fold_left f l acc).
Proof.
  intros Hf. induction l as [| b l IH]; intros acc Hacc; [exact Hacc |].
  cbn [fold_left]. apply IH, Hf, Hacc.
Qed.

Lemma Forall_firstn_of {A} (P : A -> Prop) (n : nat) (l : list A) :
  Forall P l -> Forall P (firstn n l).
Proof.
  intros Hl. rewrite <- (firstn_skipn n l) in Hl.
  now apply Forall_app in Hl.
Qed.

(** X18.  Whatever the generated text, every flashcard the parser returns
    has a question and an answer that are not empty and carry no
    whitespace at either end, a review count of 0 and no review date. *)
Theorem parsed_flashcards_are_well_formed (generated_text : str) :
  Forall well_formed_card (parse_flashcards generated_text).
Proof.
  unfold parse_flashcards. cbv zeta. rewrite slice_to by lia.
  apply Forall_firstn_of.
  destruct (1 <? len (split_sep (lit "Flashcard ") _)).
  - apply fold_left_Forall; [exact marker_step_well_formed | constructor].
  - apply fold_left_Forall; [exact fallback_step_well_formed | constructor].
Qed.

(** A text in which the separator does not occur is split into itself. *)
Lemma split_sep_loop_absent (sep : str) :
  forall (s : str) (fuel : nat) (i : Z) (cur : str),
    (length s <= fuel)%nat -> 0 <= i -> find_from i sep s = -1 ->
    split_sep_loop fuel sep cur s = [cur ++ s].
Proof.
  induction s as [| c s IH]; intros fuel i cur Hfuel Hi Hfind.
  - rewrite app_nil_r. now destruct fuel.
  - destruct fuel as [| fuel]; [simpl in Hfuel; lia |].
    cbn [find_from] in Hfind. cbn [split_sep_loop].
    destruct (startswith sep (c :: s)); [lia |].
    rewrite (IH fuel (i + 1)) by (simpl in Hfuel; lia).
    now rewrite <- app_assoc.
Qed.

Lemma split_sep_absent (sep s : str) :
  find sep s = -1 -> split_sep sep s = [s].
Proof.
  intros Hfind. unfold split_sep.
  now rewrite (split_sep_loop_absent sep s (length s) 0 []) by (lia || exact Hfind).
Qed.

(** X19.  A generated text that, once its line endings are newlines, holds
    neither the marker "Flashcard " nor the token "Question:" (with these
    capitals) gives no flashcard, whatever else it holds. *)
Theorem text_without_markers_gives_no_flashcard (generated_text : str) :
  find (lit "Flashcard ") (normalize_newlines generated_text) = -1 ->
  find (lit "Question:") (normalize_newlines generated_text) = -1 ->
  parse_flashcards generated_text = [].
Proof.
  intros Hmarker Htoken. unfold parse_flashcards.
  fold (normalize_newlines generated_text). cbv zeta.
  rewrite (split_sep_absent _ _ Hmarker), (split_sep_absent _ _ Htoken).
  reflexivity.
Qed.

Lemma text_without_markers_gives_no_flashcard_witness :
  parse_flashcards (lit "question: what is ice? answer: frozen water") = [].
Proof.
  apply text_without_markers_gives_no_flashcard; vm_compute; reflexivity.
Defined.

(** Replacing a character: every occurrence gives way to the new text. *)
Lemma replace_char (c : ascii) (new s : str) :
  replace [c] new s
  = flat_map (fun x => if Ascii.eqb c x then new else [x]) s.
Proof.
  unfold replace. induction s as [| x s IH]; [reflexivity |].
  cbn [length replace_loop startswith skipn flat_map].
  destruct (Ascii.eqb c x); cbn [andb]; now rewrite IH.
Qed.

Lemma replace_char_absent (c : ascii) (new s : str) :
  ~ In c s -> replace [c] new s = s.
Proof.
  intros Hc. rewrite replace_char. induction s as [| x s IH]; [reflexivity |].
  cbn [flat_map]. destruct (Ascii.eqb_spec c x) as [-> | _].
  - exfalso. apply Hc. now left.
  - cbn [app]. f_equal. apply IH. intros Hin. apply Hc. now right.
Qed.

Lemma find_from_absent_head (c : ascii) (p s : str) (i : Z) :
  ~ In c s -> find_from i (c :: p) s = -1.
Proof.
  revert i. induction s as [| x s IH]; intros i Hc; [reflexivity |].
  cbn [find_from startswith].
  destruct (Ascii.eqb_spec c x) as [-> | _]; [exfalso; apply Hc; now left |].
  cbn [andb]. apply IH. intros Hin. apply Hc. now right.
Qed.

(** A text without carriage return is its own normal form. *)
Lemma normalize_newlines_fixed (text : str) :
  ~ In carriage_return text -> normalize_newlines text = text.
Proof.
  intros Hcr. unfold normalize_newlines.
  rewrite (replace_absent (lit (cr ++ nl)))
    by (apply (find_from_absent_head carriage_return); exact Hcr).
  now apply (replace_char_absent carriage_return).
Qed.

(** Newlines written as carriage return and newline are read back. *)
Lemma crlf_read_back (text : str) :
  ~ In carriage_return text ->
  forall fuel,
    (length (flat_map (fun x => if Ascii.eqb newline x
                                then [carriage_return; newline] else [x])
                      text) <= fuel)%nat ->
    replace_loop fuel [carriage_return; newline] [newline]
                 (flat_map (fun x => if Ascii.eqb newline x
                                     then [carriage_return; newline] else [x])
                           text)
    = text.
Proof.
  induction text as [| x text IH]; intros Hcr fuel Hfuel; [now destruct fuel |].
  assert (Hcr' : ~ In carriage_return text)
    by (intros Hin; apply Hcr; now right).
  cbn [flat_map] in *.
  destruct (Ascii.eqb_spec newline x) as [<- | Hx].
  - cbn [app length] in *. destruct fuel as [| fuel]; [lia |].
    cbn [replace_loop startswith skipn length]. rewrite !Ascii.eqb_refl.
    cbn [andb app]. f_equal. apply IH; [exact Hcr' | lia].
  - cbn [app length] in *. destruct fuel as [| fuel]; [lia |].
    cbn [replace_loop startswith].
    destruct (Ascii.eqb_spec carriage_return x) as [<- | _];
      [exfalso; apply Hcr; now left |].
    cbn [andb]. f_equal. apply IH; [exact Hcr' | lia].
Qed.

Lemma cr_only_no_newline (text : str) :
  ~ In newline
       (flat_map (fun x => if Ascii.eqb newline x then [carriage_return]
                           else [x]) text).
Proof.
  induction text as [| x text IH]; [intros [] |].
  cbn [flat_map]. intros Hin. apply in_app_or in Hin as [Hin | Hin];
    [| exact (IH Hin)].
  destruct (Ascii.eqb_spec newline x) as [<- | Hx];
    destruct Hin as [Hin | []]; [discriminate Hin | congruence].
Qed.

Lemma find_crlf_without_newline (s : str) (i : Z) :
  ~ In newline s -> find_from i [carriage_return; newline] s = -1.
Proof.
  revert i. induction s as [| x s IH]; intros i Hnl; [reflexivity |].
  assert (Hs : ~ In newline s) by (intros Hin; apply Hnl; now right).
  cbn [find_from startswith].
  replace (Ascii.eqb carriage_return x
           && match s with
              | [] => false
              | b :: s' => Ascii.eqb newline b && true
              end) with false; [now apply IH |].
  destruct (Ascii.eqb carriage_return x); [| reflexivity].
  destruct s as [| b s']; [reflexivity |].
  destruct (Ascii.eqb_spec newline b) as [<- | _]; [| reflexivity].
  exfalso. apply Hs. now left.
Qed.

Lemma cr_only_read_back (text : str) :
  ~ In carriage_return text ->
  flat_map (fun x => if Ascii.eqb carriage_return x then [newline] else [x])
           (flat_map (fun x => if Ascii.eqb newline x then [carriage_return]
                               else [x]) text)
  = text.
Proof.
  induction text as [| x text IH]; intros Hcr; [reflexivity |].
  assert (Hcr' : ~ In carriage_return text)
    by (intros Hin; apply Hcr; now right).
  cbn [flat_map].
  destruct (Ascii.eqb_spec newline x) as [<- | Hx].
  - cbn [app flat_map]. rewrite Ascii.eqb_refl. cbn [app]. f_equal.
    now apply IH.
  - cbn [app flat_map].
    destruct (Ascii.eqb_spec carriage_return x) as [<- | _];
      [exfalso; apply Hcr; now left |].
    cbn [app]. f_equal. now apply IH.
Qed.

Lemma parse_flashcards_of_normal_form (text text' : str) :
  normalize_newlines text = normalize_newlines text' ->
  parse_flashcards text = parse_flashcards text'.
Proof.
  intros H. unfold parse_flashcards.
  fold (normalize_newlines text) (normalize_newlines text'). now rewrite H.
Qed.

(** X20.  The parser does not depend on the style of the line endings:
    a text without carriage return gives the same flashcards when each of
    its newlines is written as carriage return and newline, and when each
    is written as a carriage return alone. *)
Theorem line_endings_do_not_matter (text : str) :
  ~ In carriage_return text ->
  parse_flashcards (replace (lit nl) (lit (cr ++ nl)) text)
  = parse_flashcards text
  /\ parse_flashcards (replace (lit nl) (lit cr) text)
     = parse_flashcards text.
Proof.
  intros Hcr. split; apply parse_flashcards_of_normal_form;
    rewrite (normalize_newlines_fixed text Hcr); unfold normalize_newlines;
    change (lit nl) with [newline];
    change (lit (cr ++ nl)) with [carriage_return; newline];
    change (lit cr) with [carriage_return];
    rewrite (replace_char newline).
  - unfold replace at 2. rewrite crlf_read_back by (assumption || lia).
    now apply replace_char_absent.
  - rewrite (replace_absent [carriage_return; newline])
      by (apply find_crlf_without_newline, cr_only_no_newline).
    rewrite (replace_char carriage_return). now apply cr_only_read_back.
Qed.

Lemma line_endings_do_not_matter_witness :
  parse_flashcards
    (lit ("Flashcard 1:" ++ cr ++ nl ++ "Question: What is ice?" ++ cr ++ nl
          ++ "Answer: Frozen water"))
  = [new_flashcard (lit "What is ice?") (lit "Frozen water")].
Proof.
  destruct (line_endings_do_not_matter
              (lit ("Flashcard 1:" ++ nl ++ "Question: What is ice?" ++ nl
                    ++ "Answer: Frozen water")))
    as [Hcrlf _].
  - intros Hin. vm_compute in Hin.
    repeat (destruct Hin as [Hin | Hin]; [discriminate Hin |]).
    exact Hin.
  - change (lit ("Flashcard 1:" ++ cr ++ nl ++ "Question: What is ice?"
                 ++ cr ++ nl ++ "Answer: Frozen water"))
      with (replace (lit nl) (lit (cr ++ nl))
                    (lit ("Flashcard 1:" ++ nl ++ "Question: What is ice?"
                          ++ nl ++ "Answer: Frozen water"))).
    rewrite Hcrlf. vm_compute. reflexivity.
Defined.

(** The pieces of a split hold no more occurrences of a character than
    the text that is split. *)
Lemma split_sep_loop_count (sep : str) (c : ascii) :
  forall (fuel : nat) (cur s : str),
    Forall (fun piece =>
              (count_occ ascii_dec piece c
               <= count_occ ascii_dec cur c + count_occ ascii_dec s c)%nat)
           (split_sep_loop fuel sep cur s).
Proof.
  assert (Hskip : forall n (s : str),
             (count_occ ascii_dec (skipn n s) c <= count_occ ascii_dec s c)%nat).
  { intros n s. rewrite <- (firstn_skipn n s) at 2.
    rewrite count_occ_app. lia. }
  induction fuel as [| fuel IH]; intros cur s.
  - destruct s; cbn [split_sep_loop]; constructor; [lia | constructor | lia
                                                    | constructor].
  - destruct s as [| x s]; [constructor; [lia | constructor] |].
    cbn [split_sep_loop]. destruct (startswith sep (x :: s)).
    + constructor; [lia |].
      eapply Forall_impl; [| apply (IH [] (skipn (length sep) (x :: s)))].
      cbv beta. intros piece Hpiece.
      specialize (Hskip (length sep) (x :: s)). simpl in Hpiece. lia.
    + eapply Forall_impl; [| apply (IH (cur ++ [x]) s)].
      cbv beta. intros piece Hpiece.
      rewrite count_occ_app in Hpiece.
      change (x :: s) with ([x] ++ s). rewrite count_occ_app. lia.
Qed.

(** A text in which the separator occurs is split in two pieces at least. *)
Lemma split_sep_loop_present (sep : str) :
  sep <> [] ->
  forall (s : str) (fuel : nat) (i : Z) (cur : str),
    (length s <= fuel)%nat -> find_from i sep s <> -1 ->
    (2 <= length (split_sep_loop fuel sep cur s))%nat.
Proof.
  intros Hsep. induction s as [| c s IH]; intros fuel i cur Hfuel Hfind.
  - destruct sep; [congruence | exfalso; apply Hfind; reflexivity].
  - destruct fuel as [| fuel]; [simpl in Hfuel; lia |].
    cbn [find_from] in Hfind. cbn [split_sep_loop].
    destruct (startswith sep (c :: s)).
    + cbn [length].
      pose proof (split_sep_loop_nonempty
                    fuel sep [] (skipn (length sep) (c :: s))) as Hne.
      destruct (split_sep_loop fuel sep [] _); [congruence | simpl; lia].
    + apply (IH fuel (i + 1)); [simpl in Hfuel; lia | exact Hfind].
Qed.

(** A part of fewer than three lines gives no flashcard. *)
Lemma marker_step_short (flashcards : list Flashcard) (part : str) :
  (count_occ ascii_dec part newline < 2)%nat ->
  marker_step flashcards part = flashcards.
Proof.
  intros Hlines. unfold marker_step.
  destruct (split_char_loop newline (length part) [] part)
    as [_ Hcount]; [lia | intros [] |].
  replace (3 <=? len (split_sep (lit nl) part)) with false; [reflexivity |].
  symmetry. apply Z.leb_gt. unfold len, split_sep.
  change (lit nl) with [newline]. rewrite Hcount. lia.
Qed.

(** X21.  Once the marker "Flashcard " occurs in the generated text, only
    parts of at least three lines can give a flashcard: a text that holds
    the marker and fewer than two line breaks gives no flashcard, whatever
    questions and answers it holds. *)
Theorem marker_needs_three_lines (generated_text : str) :
  find (lit "Flashcard ") (normalize_newlines generated_text) <> -1 ->
  (count_occ ascii_dec (normalize_newlines generated_text) newline < 2)%nat ->
  parse_flashcards generated_text = [].
Proof.
  intros Hmarker Hlines. unfold parse_flashcards.
  fold (normalize_newlines generated_text). cbv zeta.
  set (text := normalize_newlines generated_text) in *.
  assert (Hparts : (2 <= length (split_sep (lit "Flashcard ") text))%nat)
    by (apply (split_sep_loop_present (lit "Flashcard ")
                                      ltac:(vm_compute; discriminate)
                                      text _ 0);
        [lia | exact Hmarker]).
  replace (1 <? len (split_sep (lit "Flashcard ") text)) with true
    by (symmetry; apply Z.ltb_lt; unfold len; lia).
  assert (Hshort : Forall (fun part =>
                             (count_occ ascii_dec part newline < 2)%nat)
                          (split_sep (lit "Flashcard ") text)).
  { eapply Forall_impl;
      [| apply (split_sep_loop_count (lit "Flashcard ") newline
                                     (length text) [] text)].
    cbv beta. intros part Hpart. simpl in Hpart. lia. }
  rewrite slice_from by lia.
  assert (Hrest : Forall (fun part =>
                            (count_occ ascii_dec part newline < 2)%nat)
                         (skipn (Z.to_nat 1)
                                (split_sep (lit "Flashcard ") text))).
  { rewrite <- (firstn_skipn (Z.to_nat 1)) in Hshort.
    now apply Forall_app in Hshort. }
  assert (Hfold : forall parts acc,
             Forall (fun part =>
                       (count_occ ascii_dec part newline < 2)%nat) parts ->
             fold_left marker_step parts acc = acc).
  { induction parts as [| part parts IH]; intros acc Hall; [reflexivity |].
    apply Forall_cons_iff in Hall as [Hpart Hall].
    cbn [fold_left]. rewrite marker_step_short by exact Hpart.
    now apply IH. }
  now rewrite Hfold.
Qed.

Lemma marker_needs_three_lines_witness :
  parse_flashcards
    (lit "Flashcard 1: Question: What is ice? Answer: Frozen water")
  = []
  /\ parse_flashcards (lit "Question: What is ice? Answer: Frozen water")
     = [new_flashcard (lit "What is ice?") (lit "Frozen water")].
Proof.
  split; [| vm_compute; reflexivity].
  apply marker_needs_three_lines.
  - vm_compute. discriminate.
  - vm_compute. lia.
Defined.

(* ================================================================== *)
(** ** Further properties of the flashcard generation *)
(* ================================================================== *)

(** X22.  Without content, [generate_flashcards] reads the Document Store
    through its first 30 chunks only: two services with the same pipeline,
    each with an index and stored chunks, whose stores agree on their
    first 30 chunks give the same flashcards. *)
Theorem flashcards_read_the_first_30_chunks
        (self self' : RAGStudyAssistant) :
  qa_pipeline self = qa_pipeline self' ->
  vector_index self <> None -> vector_index self' <> None ->
  documents self <> [] -> documents self' <> [] ->
  slice (documents self) None (Some 30)
  = slice (documents self') None (Some 30) ->
  generate_flashcards self None = generate_flashcards self' None.
Proof.
  intros Hqa Hix Hix' Hdocs Hdocs' Hfirst.
  unfold generate_flashcards, flashcard_context. rewrite <- Hqa.
  destruct (qa_pipeline self) as [qa |] eqn:Eqa; [| reflexivity].
  destruct (vector_index self); [| congruence].
  destruct (vector_index self'); [| congruence].
  replace (len (documents self) =? 0) with false
    by (destruct (documents self); [congruence | reflexivity]).
  replace (len (documents self') =? 0) with false
    by (destruct (documents self'); [congruence | reflexivity]).
  cbn [bind]. rewrite Hfirst. unfold generate_text.
  now rewrite <- Hqa, Eqa.
Qed.

Lemma flashcards_read_the_first_30_chunks_witness :
  let longer :=
    set_documents full_service
                  (documents full_service ++ [lit "one more chunk"]) in
  generate_flashcards full_service None = generate_flashcards longer None.
Proof.
  intros longer.
  apply (flashcards_read_the_first_30_chunks full_service longer).
  - reflexivity.
  - vm_compute. discriminate.
  - vm_compute. discriminate.
  - vm_compute. discriminate.
  - vm_compute. discriminate.
  - vm_compute. reflexivity.
Defined.

(** X23.  [generate_flashcards] never builds its prompt on more than
    8195 characters of context (8192 and the three dots): with a pipeline
    and a valid chunking configuration, either it returns the empty list
    without generating, or it generates once, from the flashcard prompt of
    a context of at most 8195 characters. *)
Theorem flashcard_context_is_bounded
        (self : RAGStudyAssistant) (content : option str) :
  0 < chunk_size self -> chunk_overlap self < chunk_size self ->
  generate_flashcards self content = Ok []
  \/ exists context,
       len context <= 8195
       /\ generate_flashcards self content
          = Ok (match generate_text self (flashcard_prompt context) 2048 with
                | Ok generated_text => parse_flashcards generated_text
                | Raise _ => []
                end).
Proof.
  intros Hsize Hstep. unfold generate_flashcards.
  destruct (qa_pipeline self) as [qa |]; [| now left].
  assert (Hcontext : exists c, flashcard_context self content = Ok c).
  { unfold flashcard_context. destruct content as [text |].
    - rewrite chunk_text_windows by assumption. cbn [bind]. now eexists.
    - destruct (vector_index self); [| now eexists].
      destruct (len (documents self) =? 0); now eexists. }
  destruct Hcontext as [[context |] ->]; cbn [bind]; [| now left].
  right.
  exists (if max_context_chars <? len context
          then slice context None (Some max_context_chars) ++ lit "..."
          else context).
  split; [| now destruct (generate_text self _ 2048)].
  unfold max_context_chars.
  destruct (Z.ltb_spec (2048 * 4) (len context)) as [Hlong | Hshort]; [| lia].
  rewrite slice_to by lia. unfold len.
  rewrite length_app, length_firstn. simpl length. lia.
Qed.

Lemma flashcard_context_is_bounded_witness :
  exists context,
    len context <= 8195
    /\ generate_flashcards (init None (Some echo_pipeline))
                           (Some (text_of_words 5000))
       = Ok (match generate_text (init None (Some echo_pipeline))
                                 (flashcard_prompt context) 2048 with
             | Ok generated_text => parse_flashcards generated_text
             | Raise _ => []
             end).
Proof.
  destruct (flashcard_context_is_bounded
              (init None (Some echo_pipeline)) (Some (text_of_words 5000))
              eq_refl eq_refl)
    as [Hnone | Hcontext]; [| exact Hcontext].
  exfalso.
  assert (Hfive : exists cards,
             generate_flashcards (init None (Some echo_pipeline))
                                 (Some (text_of_words 5000))
             = Ok cards /\ len cards = 5)
    by (eexists; split; vm_compute; reflexivity).
  destruct Hfive as (cards & Hcards & Hlen).
  rewrite Hnone in Hcards. injection Hcards as <-. discriminate Hlen.
Defined.

(* ================================================================== *)
(** ** Properties of the file processor *)
(* ================================================================== *)

Lemma read_pages_ok (texts : list str) (text : str) :
  read_pages text (map Ok texts)
  = Ok (text ++ concat (map (fun t => t ++ lit nl) texts)).
Proof.
  revert text. induction texts as [| t texts IH]; intros text.
  - simpl. now rewrite app_nil_r.
  - cbn [map read_pages bind concat]. rewrite IH.
    now rewrite <- !app_assoc.
Qed.

Lemma read_pages_fail (before : list str) (e : exn)
      (after : list (result str)) (text : str) :
  read_pages text (map Ok before ++ Raise e :: after) = Raise e.
Proof.
  revert text. induction before as [| t before IH]; intros text;
    [reflexivity |].
  cbn [map app read_pages bind]. apply IH.
Qed.

(** X24.  [_read_pdf] gives all of a PDF or nothing of it: when every page
    is extracted, the text is the texts of the pages, each followed by a
    newline; when the extraction of a page raises, the text of the pages
    before it is dropped and the result is only the message
    "Error reading PDF", the path and the exception. *)
Theorem read_pdf_all_or_nothing (fs : FileSystem) (filepath : str) :
  (forall texts,
      pdf_pages fs filepath = Ok (map Ok texts) ->
      _read_pdf fs filepath = concat (map (fun t => t ++ lit nl) texts))
  /\ (forall before e after,
        pdf_pages fs filepath = Ok (map Ok before ++ Raise e :: after) ->
        _read_pdf fs filepath
        = lit "Error reading PDF " ++ filepath ++ lit ": " ++ exn_str e).
Proof.
  unfold _read_pdf. split.
  - intros texts ->. cbn [bind]. now rewrite read_pages_ok.
  - intros before e after ->. cbn [bind]. now rewrite read_pages_fail.
Qed.

Lemma read_pdf_all_or_nothing_witness :
  let fs := {| listdir := fun _ => Ok [];
               read_text := fun _ => Ok [];
               pdf_pages := fun _ =>
                 Ok [Ok (lit "page one");
                     Raise (PyExc "KeyError" (lit "'/Contents'"));
                     Ok (lit "page three")];
               docx_paragraphs := fun _ => Ok [];
               workbook_sheets := fun _ => Ok [];
               image_to_string := fun _ => Ok [] |} in
  _read_pdf fs (lit "notes.pdf")
  = lit "Error reading PDF notes.pdf: '/Contents'".
Proof.
  intros fs.
  destruct (read_pdf_all_or_nothing fs (lit "notes.pdf")) as [_ Hfail].
  apply (Hfail [lit "page one"] (PyExc "KeyError" (lit "'/Contents'"))
               [Ok (lit "page three")]).
  reflexivity.
Defined.

(** A character that is not in [p] cuts what [startswith p] reads. *)
Lemma startswith_cut (c : ascii) (p a b : str) :
  ~ In c p -> startswith p (a ++ c :: b) = startswith p a.
Proof.
  revert a. induction p as [| x p IH]; intros a Hc; [reflexivity |].
  assert (Hx : x <> c) by (intros ->; apply Hc; now left).
  assert (Hp : ~ In c p) by (intros Hin; apply Hc; now right).
  destruct a as [| y a].
  - cbn [app startswith]. now destruct (Ascii.eqb_spec x c).
  - cbn [app startswith]. now rewrite IH.
Qed.

(** The directory of a path does not count for a suffix without slash. *)
Lemma endswith_path_join (suffix dir name : str) :
  ~ In "/"%char suffix ->
  endswith suffix (path_join dir name) = endswith suffix name
  /\ endswith suffix (lower (path_join dir name))
     = endswith suffix (lower name).
Proof.
  intros Hslash.
  assert (Hcut : forall pre,
             endswith suffix (pre ++ "/"%char :: name) = endswith suffix name
             /\ endswith suffix (lower (pre ++ "/"%char :: name))
                = endswith suffix (lower name)).
  { intros pre. unfold endswith, lower. rewrite map_app. cbn [map].
    rewrite !rev_app_distr. cbn [rev]. rewrite <- !app_assoc. cbn [app].
    change (lower_char "/") with "/"%char.
    split; apply startswith_cut; now rewrite <- in_rev. }
  unfold path_join.
  destruct (startswith (lit "/") name); [now split |].
  destruct (nonempty dir) eqn:Hdir; cbn [negb orb].
  - destruct (endswith (lit "/") dir) eqn:Hend; [| apply Hcut].
    unfold endswith in Hend. cbn [lit list_ascii_of_string rev app] in Hend.
    destruct (rev dir) as [| last rdir] eqn:Hrev; [discriminate |].
    cbn [startswith] in Hend. apply andb_true_iff in Hend as [Hlast _].
    apply Ascii.eqb_eq in Hlast. subst last.
    assert (E : dir = rev rdir ++ ["/"%char])
      by (rewrite <- (rev_involutive dir), Hrev; reflexivity).
    rewrite E, <- app_assoc. apply Hcut.
  - destruct dir; [now split | discriminate].
Qed.

Lemma endswith_any_path_join (dir name : str) :
  endswith_any image_suffixes (lower (path_join dir name))
  = endswith_any image_suffixes (lower name).
Proof.
  unfold endswith_any, image_suffixes. cbn [existsb].
  repeat match goal with
         | |- context [endswith ?suffix (lower (path_join dir name))] =>
             rewrite (proj2 (endswith_path_join suffix dir name
                               ltac:(vm_compute; intuition discriminate)))
         end.
  reflexivity.
Qed.

Lemma load_step_as_process_file (fs : FileSystem) (dir : str)
      (documents : list str) (filename : str) :
  load_step fs dir documents filename
  = if supported_file filename
    then content <- process_file fs (path_join dir filename) ;;
         Ok (documents ++ [content])
    else Ok documents.
Proof.
  unfold load_step, process_file, supported_file.
  rewrite endswith_any_path_join.
  repeat match goal with
         | |- context [endswith ?suffix (path_join dir filename)] =>
             rewrite (proj1 (endswith_path_join suffix dir filename
                               ltac:(vm_compute; intuition discriminate)))
         end.
  destruct (endswith (lit ".txt") filename); [reflexivity |].
  destruct (endswith (lit ".pdf") filename); [reflexivity |].
  destruct (endswith (lit ".docx") filename); [reflexivity |].
  destruct (endswith (lit ".xlsx") filename); [reflexivity |].
  destruct (endswith (lit ".xls") filename); [reflexivity |].
  now destruct (endswith_any image_suffixes (lower filename)).
Qed.

Lemma load_loop_as_process_file (fs : FileSystem) (dir : str)
      (filenames : list str) (documents : list str) :
  load_loop fs dir documents filenames
  = (contents <- map_result (fun name => process_file fs (path_join dir name))
                            (filter supported_file filenames) ;;
     Ok (documents ++ contents)).
Proof.
  revert documents. induction filenames as [| name names IH];
    intros documents.
  - simpl. now rewrite app_nil_r.
  - cbn [load_loop filter]. rewrite load_step_as_process_file.
    destruct (supported_file name); cbn [map_result bind]; [| apply IH].
    destruct (process_file fs (path_join dir name)); [| reflexivity].
    cbn [bind]. rewrite IH.
    destruct (map_result _ _); [| reflexivity].
    cbn [bind]. now rewrite <- app_assoc.
Qed.

(** X25.  [load_documents] and [process_file] read a file the same way:
    the documents of a directory are what [process_file] returns for the
    path of each file with a supported name, in the order of the listing;
    a file with another name is left out, where [process_file] returns
    the text "Unsupported file type: " followed by its path. *)
Theorem load_documents_as_process_file (fs : FileSystem) (dir : str) :
  load_documents fs dir
  = (filenames <- listdir fs dir ;;
     map_result (fun name => process_file fs (path_join dir name))
                (filter supported_file filenames))
  /\ (forall name,
        supported_file name = false ->
        process_file fs (path_join dir name)
        = Ok (lit "Unsupported file type: " ++ path_join dir name)).
Proof.
  split.
  - unfold load_documents. destruct (listdir fs dir); [| reflexivity].
    cbn [bind]. rewrite load_loop_as_process_file.
    now destruct (map_result _ _).
  - intros name Hname.
    unfold supported_file in Hname.
    unfold process_file.
    rewrite endswith_any_path_join.
    repeat match goal with
           | |- context [endswith ?suffix (path_join dir name)] =>
               rewrite (proj1 (endswith_path_join suffix dir name
                                 ltac:(vm_compute; intuition discriminate)))
           end.
    repeat (apply orb_false_iff in Hname as [Hname ?]).
    now repeat match goal with H : _ = false |- _ => rewrite H; clear H end.
Qed.

Lemma load_documents_as_process_file_witness :
  let fs := {| listdir := fun _ => Ok [lit "a.txt"; lit "B.TXT"; lit "c.PNG"];
               read_text := fun path => Ok (lit "text of " ++ path);
               pdf_pages := fun _ => Ok [];
               docx_paragraphs := fun _ => Ok [];
               workbook_sheets := fun _ => Ok [];
               image_to_string := fun path => Ok (lit "image " ++ path) |} in
  load_documents fs (lit "data/documents")
  = Ok [lit "text of data/documents/a.txt"; lit "image data/documents/c.PNG"]
  /\ process_file fs (lit "data/documents/B.TXT")
     = Ok (lit "Unsupported file type: data/documents/B.TXT").
Proof.
  intros fs.
  destruct (load_documents_as_process_file fs (lit "data/documents"))
    as [Hload Hunsupported].
  split.
  - rewrite Hload. vm_compute. reflexivity.
  - apply (Hunsupported (lit "B.TXT")). vm_compute. reflexivity.
Defined.

(* ================================================================== *)
(** ** Properties of the study streak *)
(* ================================================================== *)

Lemma render_on_days_app (days days' : list Z) (state : Streak) :
  render_on_days (days ++ days') state
  = render_on_days days' (render_on_days days state).
Proof. unfold render_on_days. apply fold_left_app. Qed.

Lemma days_in_a_row_succ (first : Z) (n : nat) :
  days_in_a_row first (S n)
  = days_in_a_row first n ++ [first + Z.of_nat n].
Proof.
  unfold days_in_a_row. rewrite seq_S, map_app. reflexivity.
Qed.

(** X26.  The streak counts the days in a row on which the counter is
    rendered: from a new session, rendering it on each of [n] consecutive
    days (at least one) leaves a streak of [n], dated of the last of these
    days. *)
Theorem streak_counts_days_in_a_row (first : Z) (n : nat) :
  (1 <= n)%nat ->
  render_on_days (days_in_a_row first n) new_streak
  = {| current_streak := Z.of_nat n;
       last_study_date := Some (first + Z.of_nat n - 1) |}.
Proof.
  intros Hn. induction n as [| n IH]; [lia |].
  rewrite days_in_a_row_succ, render_on_days_app.
  destruct n as [| n].
  - cbn. f_equal. f_equal. lia.
  - rewrite IH by lia. unfold render_on_days. cbn [fold_left].
    unfold render_streak_counter. cbn [last_study_date current_streak].
    destruct (Z.eqb_spec (first + Z.of_nat (S n) - 1)
                         (first + Z.of_nat (S n))); [lia |].
    destruct (Z.eqb_spec (first + Z.of_nat (S n) - 1)
                         (first + Z.of_nat (S n) - 1)); [| lia].
    f_equal; [| f_equal]; lia.
Qed.

Lemma streak_counts_days_in_a_row_witness :
  render_on_days [738000; 738001; 738002] new_streak
  = {| current_streak := 3; last_study_date := Some 738002 |}.
Proof.
  exact (streak_counts_days_in_a_row 738000 3 ltac:(lia)).
Defined.

(** X27.  Rendering the streak counter again on the same day changes
    nothing, a day missed sets the streak back to 1, and after any
    rendering the streak is dated of the day of the rendering. *)
Theorem streak_same_day_and_missed_day (today : Z) (state : Streak) :
  let state' := render_streak_counter today state in
  last_study_date state' = Some today
  /\ render_streak_counter today state' = state'
  /\ (forall last_study,
        last_study_date state = Some last_study ->
        last_study < today - 1 ->
        current_streak state' = 1).
Proof.
  cbv zeta.
  assert (Hdate : last_study_date (render_streak_counter today state)
                  = Some today).
  { unfold render_streak_counter.
    destruct (last_study_date state) as [last_study |] eqn:Hlast;
      [| reflexivity].
    destruct (Z.eqb_spec last_study today) as [-> | _]; [exact Hlast |].
    destruct (last_study =? today - 1); [reflexivity |].
    now destruct (last_study <? today - 1). }
  split; [exact Hdate |]. split.
  - unfold render_streak_counter at 1. rewrite Hdate.
    now rewrite Z.eqb_refl.
  - intros last_study Hlast Hmissed. unfold render_streak_counter.
    rewrite Hlast.
    destruct (Z.eqb_spec last_study today); [lia |].
    destruct (Z.eqb_spec last_study (today - 1)); [lia |].
    now destruct (last_study <? today - 1).
Qed.

Lemma streak_same_day_and_missed_day_witness :
  current_streak
    (render_streak_counter
       738010 {| current_streak := 7; last_study_date := Some 738005 |})
  = 1.
Proof.
  destruct (streak_same_day_and_missed_day
              738010 {| current_streak := 7; last_study_date := Some 738005 |})
    as (_ & _ & Hmissed).
  apply (Hmissed 738005); [reflexivity | lia].
Defined.

(* ================================================================== *)
(** ** Adding documents in several calls *)
(* ================================================================== *)

Lemma chunk_all_from (self : RAGStudyAssistant) (docs all_chunks : list str) :
  chunk_all self all_chunks docs
  = (chunks <- chunk_all self [] docs ;; Ok (all_chunks ++ chunks)).
Proof.
  revert all_chunks. induction docs as [| doc docs IH]; intros all_chunks.
  - simpl. now rewrite app_nil_r.
  - cbn [chunk_all]. destruct (_chunk_text self doc) as [chunks | e];
      [| reflexivity].
    cbn [bind app]. rewrite (IH (all_chunks ++ chunks)), (IH chunks).
    destruct (chunk_all self [] docs); [| reflexivity].
    cbn [bind]. now rewrite app_assoc.
Qed.

Lemma chunk_all_app (self : RAGStudyAssistant) (docs docs' : list str) :
  chunk_all self [] (docs ++ docs')
  = (chunks <- chunk_all self [] docs ;;
     chunks' <- chunk_all self [] docs' ;;
     Ok (chunks ++ chunks')).
Proof.
  induction docs as [| doc docs IH].
  - cbn [app chunk_all bind]. now destruct (chunk_all self [] docs').
  - cbn [app chunk_all].
    destruct (_chunk_text self doc) as [chunks | e]; [| reflexivity].
    cbn [bind app]. rewrite (chunk_all_from self (docs ++ docs') chunks).
    rewrite (chunk_all_from self docs chunks), IH.
    destruct (chunk_all self [] docs); [| reflexivity].
    cbn [bind]. destruct (chunk_all self [] docs'); [| reflexivity].
    cbn [bind]. now rewrite app_assoc.
Qed.

(** What [add_documents] stores once the chunking went through, whatever
    the embedding does. *)
Lemma add_documents_store (self : RAGStudyAssistant) (docs all_chunks : list str) :
  chunk_all self [] docs = Ok all_chunks ->
  let self' := snd (add_documents self docs) in
  documents self' = documents self ++ all_chunks
  /\ chunk_size self' = chunk_size self
  /\ chunk_overlap self' = chunk_overlap self.
Proof.
  intros Hchunks. cbv zeta. unfold add_documents.
  destruct docs as [| doc docs].
  { cbn in Hchunks. injection Hchunks as <-.
    cbn [nonempty negb snd]. now rewrite app_nil_r. }
  cbn [nonempty negb]. rewrite Hchunks.
  destruct (range 0 (len all_chunks) batch_size) as [starts | e];
    [| now cbn [snd]].
  destruct (negb (nonempty (fold_left _ starts []))); [now cbn [snd] |].
  destruct (vstack _) as [embeddings | e]; [| now cbn [snd]].
  destruct (index_add _ embeddings); now cbn [snd].
Qed.

(** X28.  The Document Store does not depend on how the documents are
    spread over calls, nor on what the embedding does: adding documents
    and then more documents stores the same chunks, in the same order, as
    adding all of them in one call. *)
Theorem adding_in_two_calls_stores_the_same
        (self : RAGStudyAssistant) (docs docs' : list str) :
  0 < chunk_size self -> chunk_overlap self < chunk_size self ->
  documents (snd (add_documents (snd (add_documents self docs)) docs'))
  = documents (snd (add_documents self (docs ++ docs'))).
Proof.
  intros Hsize Hstep.
  destruct (chunk_all_spec self docs Hsize Hstep []) as (per & _ & Hdocs).
  destruct (chunk_all_spec self docs' Hsize Hstep []) as (per' & _ & Hdocs').
  cbn [app] in Hdocs, Hdocs'.
  destruct (add_documents_store self docs _ Hdocs) as (Hstore & Hs & Ho).
  set (self1 := snd (add_documents self docs)) in *.
  assert (Hdocs1 : chunk_all self1 [] docs' = Ok (concat per'))
    by (rewrite (chunk_all_same_config self1 self) by assumption;
        exact Hdocs').
  destruct (add_documents_store self1 docs' _ Hdocs1) as (Hstore' & _ & _).
  assert (Hall : chunk_all self [] (docs ++ docs')
                 = Ok (concat per ++ concat per'))
    by (rewrite chunk_all_app, Hdocs, Hdocs'; reflexivity).
  destruct (add_documents_store self (docs ++ docs') _ Hall) as (Hstore2 & _ & _).
  rewrite Hstore', Hstore, Hstore2. now rewrite app_assoc.
Qed.

Lemma adding_in_two_calls_stores_the_same_witness :
  documents
    (snd (add_documents
            (snd (add_documents (init (Some sample_embedder) None)
                                [lit "alpha beta"]))
            [lit "gamma"; lit "delta epsilon zeta"]))
  = documents sample_service.
Proof.
  rewrite (adding_in_two_calls_stores_the_same
             (init (Some sample_embedder) None) [lit "alpha beta"]
             [lit "gamma"; lit "delta epsilon zeta"] eq_refl eq_refl).
  reflexivity.
Defined.
